(** * frontblok-crud: naming engine, entity client and reactive hooks

    A shallow embedding of [utils.ts] (naming utilities), [api.ts]
    (the [UniversalApi] entity client) and [hooks.ts] (the React hooks
    [useEntityList], [useEntity], [useMutation], [useEntityForm]).

    Strings are sequences of code units; the embedding covers the code
    units below 256 (Basic Latin and Latin-1), on which slicing, case
    folding and URL encoding are modelled exactly.  Numbers are given
    by their shortest decimal and printed as [Number::toString] does. *)

From Stdlib Require Import String DecimalString.
From Stdlib Require Import List Bool Arith ZArith Lia Ascii.
Import ListNotations.

Set Implicit Arguments.

(* ===================================================================== *)
(** ** JavaScript strings *)
(* ===================================================================== *)

Module JsString.

(** A string as the list of its code units. *)
Definition str := list ascii.

(** A literal, written as a Rocq string. *)
Definition lit (s : String.string) : str := String.list_ascii_of_string s.
Arguments lit s%_string.

Definition char_eqb (a b : ascii) : bool := Ascii.eqb a b.
Arguments char_eqb : simpl never.

Fixpoint str_eqb (a b : str) : bool :=
  match a, b with
  | [], [] => true
  | x :: a', y :: b' => char_eqb x y && str_eqb a' b'
  | _, _ => false
  end.

(** [String.prototype.startsWith]. *)
Fixpoint startsWith (s p : str) {struct p} : bool :=
  match p, s with
  | [], _ => true
  | _ :: _, [] => false
  | x :: p', y :: s' => char_eqb x y && startsWith s' p'
  end.

(** Relative index of [slice]: a negative index counts from the end,
    and every index is clamped to [0, length]. *)
Definition rel_index (len : nat) (i : Z) : nat :=
  if (i <? 0)%Z then Z.to_nat (Z.max 0 (Z.of_nat len + i))
  else Nat.min (Z.to_nat i) len.

(** [s.slice(start, end)]. *)
Definition slice (s : str) (start stop : Z) : str :=
  let from := rel_index (length s) start in
  let to := rel_index (length s) stop in
  firstn (to - from) (skipn from s).

(** [s.slice(start)]. *)
Definition slice_from (s : str) (start : Z) : str :=
  skipn (rel_index (length s) start) s.

(** [s.endsWith(e)]: the last [length e] units of [s] are [e]. *)
Definition endsWith (s e : str) : bool :=
  (length e <=? length s) && str_eqb (skipn (length s - length e) s) e.

(** [s.includes(sub)]: [sub] occurs somewhere in [s]. *)
Fixpoint includes (s sub : str) : bool :=
  startsWith s sub ||
  match s with
  | [] => false
  | _ :: s' => includes s' sub
  end.

(** The upper-case letters below 256: [A]-[Z], and the Latin-1
    letters from 192 to 222 without the multiplication sign. *)
Definition is_upper (c : ascii) : bool :=
  let n := nat_of_ascii c in
  ((65 <=? n) && (n <=? 90))
  || ((192 <=? n) && (n <=? 222) && negb (n =? 215)).

Definition lower_char (c : ascii) : ascii :=
  if is_upper c then ascii_of_nat (nat_of_ascii c + 32) else c.

Arguments lower_char : simpl never.

(** [s.toLowerCase()]. *)
Definition toLowerCase (s : str) : str := map lower_char s.

(** Truthiness of a string: [!s] holds of the empty string only. *)
Definition truthy (s : str) : bool :=
  match s with [] => false | _ => true end.

End JsString.

Import JsString.

(* ===================================================================== *)
(** ** Naming utilities ([utils.ts]) *)
(* ===================================================================== *)

Module Naming.

(** The endings [toSingular] recognises in front of [es]. *)
Definition singularStems : list str :=
  [lit "ch"; lit "sh"; lit "ss"; lit "x"; lit "z"; lit "o"].

Definition toSingular (s : str) : str :=
  if endsWith s (lit "ies") && (3 <? length s) then
    slice s 0 (-3) ++ lit "y"
  else if endsWith s (lit "es") && (2 <? length s) then
    let withoutEs := slice s 0 (-2) in
    if existsb (fun e => endsWith withoutEs e) singularStems then withoutEs
    else slice s 0 (-1)
  else if endsWith s (lit "s") && (1 <? length s) then
    slice s 0 (-1)
  else s.

Definition esEndings : list str :=
  [lit "ch"; lit "sh"; lit "x"; lit "z"; lit "o"].

(** The [for] loop over [esEndings] with its early [return]. *)
Fixpoint firstEsEnding (s : str) (endings : list str) : bool :=
  match endings with
  | [] => false
  | ending :: rest =>
      if endsWith (toLowerCase s) ending then true
      else firstEsEnding s rest
  end.

(** The test of the second [if]: a final [y] after a unit that is not
    a vowel. *)
Definition consonantY (s : str) : bool :=
  (1 <? length s)
  && str_eqb (toLowerCase (slice_from s (-1))) (lit "y")
  && negb (includes (lit "aeiou") (toLowerCase (slice s (-2) (-1)))).

Definition toPlural (s : str) : str :=
  if negb (truthy s) then s
  else if endsWith (toLowerCase s) (lit "s") then s
  else if consonantY s then slice s 0 (-1) ++ lit "ies"
  else if firstEsEnding s esEndings then s ++ lit "es"
  else s ++ lit "s".

(** Which of its rules [toPlural] applies to a word: the guards of
    [toPlural], in its order. *)
Inductive rule := Unchanged | YToIes | AppendEs | AppendS.

Definition rule_of (s : str) : rule :=
  if negb (truthy s) then Unchanged
  else if endsWith (toLowerCase s) (lit "s") then Unchanged
  else if consonantY s then YToIes
  else if firstEsEnding s esEndings then AppendEs
  else AppendS.

(** A regular-plural input: a word that one of the three pluralising
    rules (plain [s], [y] to [ies], [es]) applies to. *)
Definition regularPluralInput (s : str) : Prop := rule_of s <> Unchanged.

(** The words whose plural [toSingular] brings back.  The final [y]
    and the [es] ending must be in lower case, as [toSingular]
    compares without folding; a word that takes a plain [s] must not
    look like the plural of another word: no final [ie] (beyond the
    word [ie] itself) and no [e] after one of [singularStems]. *)
Definition restorable (s : str) : bool :=
  match rule_of s with
  | Unchanged => false
  | YToIes => endsWith s (lit "y")
  | AppendEs => existsb (fun e => endsWith s e) esEndings
  | AppendS =>
      negb (endsWith s (lit "ie") && (2 <? length s))
      && negb (existsb (fun e => endsWith s (e ++ lit "e")) singularStems)
  end.

End Naming.

Import Naming.

(* ===================================================================== *)
(** ** The naming engine on the reversed word *)
(* ===================================================================== *)

(** The functions of the naming engine test and cut the end of a word.
    On the reversed word an ending is a prefix and the tests compute by
    pattern matching; [rule_of_rev], [toPlural_rev], [toSingular_rev]
    and [restorable_rev] below relate each function to its view. *)

Module NamingView.

Definition ruleR (r : str) : rule :=
  if negb (truthy r) then Unchanged
  else if startsWith (toLowerCase r) (lit "s") then Unchanged
  else if (1 <? length r)
          && str_eqb (toLowerCase (firstn 1 r)) (lit "y")
          && negb (includes (lit "aeiou")
                     (toLowerCase (firstn 1 (skipn 1 r))))
  then YToIes
  else if existsb (fun e => startsWith (toLowerCase r) (rev e)) esEndings
  then AppendEs
  else AppendS.

Definition toPluralR (r : str) : str :=
  match ruleR r with
  | Unchanged => r
  | YToIes => lit "sei" ++ skipn 1 r
  | AppendEs => lit "se" ++ r
  | AppendS => lit "s" ++ r
  end.

Definition toSingularR (r : str) : str :=
  if startsWith r (lit "sei") && (3 <? length r) then
    lit "y" ++ skipn 3 r
  else if startsWith r (lit "se") && (2 <? length r) then
    if existsb (fun e => startsWith (skipn 2 r) (rev e)) singularStems
    then skipn 2 r
    else skipn 1 r
  else if startsWith r (lit "s") && (1 <? length r) then skipn 1 r
  else r.

Definition restorableR (r : str) : bool :=
  match ruleR r with
  | Unchanged => false
  | YToIes => startsWith r (lit "y")
  | AppendEs => existsb (fun e => startsWith r (rev e)) esEndings
  | AppendS =>
      negb (startsWith r (lit "ei") && (2 <? length r))
      && negb (existsb (fun e => startsWith r (lit "e" ++ rev e))
                 singularStems)
  end.

End NamingView.

Import NamingView.

(* ===================================================================== *)
(** ** The entity client ([api.ts]) *)
(* ===================================================================== *)

Module Api.

(** A Number value.  A finite number other than zero is given by the
    decimal that [Number::toString] works from: [Finite negative s e]
    is the number whose shortest decimal is [s] times ten to the [e],
    so one is [Finite false 1 0], a half is [Finite false 5 (-1)] and
    1e21 is [Finite false 1 21]; final zeros of [s] count as part of
    the exponent.  Decimals that are the shortest decimal of no double
    stand for no Number value. *)
Inductive number :=
| NaN
| Infinity (negative : bool)
| Zero
| Finite (negative : bool) (s : positive) (e : Z).

(** The number of an integer literal. *)
Definition ofZ (z : Z) : number :=
  match z with
  | Z0 => Zero
  | Zpos p => Finite false p 0
  | Zneg p => Finite true p 0
  end.

(** The decimal digits of a positive integer. *)
Definition digitsOf (p : positive) : str :=
  list_ascii_of_string (NilZero.string_of_uint (Pos.to_uint p)).

(** Drops the zeros at the head of a string; on the reversed digits,
    those at their end. *)
Fixpoint dropZeros (r : str) : str :=
  match r with
  | c :: r' => if char_eqb c "0"%char then dropZeros r' else r
  | [] => []
  end.

Definition zeros (count : nat) : str := repeat "0"%char count.

(** Steps 6 to 10 of [Number::toString]: [ds] are the [k] digits of the
    shortest decimal and [n] places the decimal point. *)
Definition formatDecimal (ds : str) (n : Z) : str :=
  let k := Z.of_nat (length ds) in
  if ((k <=? n) && (n <=? 21))%Z then
    ds ++ zeros (Z.to_nat (n - k))
  else if ((0 <? n) && (n <=? 21))%Z then
    firstn (Z.to_nat n) ds ++ lit "." ++ skipn (Z.to_nat n) ds
  else if ((-6 <? n) && (n <=? 0))%Z then
    lit "0." ++ zeros (Z.to_nat (- n)) ++ ds
  else
    let exponent :=
      (if (n - 1 <? 0)%Z then lit "-" else lit "+")
      ++ digitsOf (Z.to_pos (Z.abs (n - 1))) in
    match ds with
    | [] => []
    | [d] => d :: lit "e" ++ exponent
    | d :: rest => d :: lit "." ++ rest ++ lit "e" ++ exponent
    end.

(** [Number::toString] in radix ten. *)
Definition numberToString (x : number) : str :=
  match x with
  | NaN => lit "NaN"
  | Infinity false => lit "Infinity"
  | Infinity true => lit "-Infinity"
  | Zero => lit "0"
  | Finite negative s e =>
      let all := digitsOf s in
      let ds := rev (dropZeros (rev all)) in
      let n := (e + Z.of_nat (length all))%Z in
      (if negative then lit "-" else []) ++ formatDecimal ds n
  end.

(** The scalar values an options object or a thrown value may hold. *)
Inductive value :=
| VUndefined
| VNull
| VBool (b : bool)
| VNum (x : number)
| VStr (s : str).

(** [String(value)]. *)
Definition String_ (v : value) : str :=
  match v with
  | VUndefined => lit "undefined"
  | VNull => lit "null"
  | VBool true => lit "true"
  | VBool false => lit "false"
  | VNum x => numberToString x
  | VStr s => s
  end.

(** [Array.prototype.join]. *)
Fixpoint join (sep : str) (parts : list str) : str :=
  match parts with
  | [] => []
  | [x] => x
  | x :: rest => x ++ sep ++ join sep rest
  end.

(** *** [URLSearchParams], as the URL standard defines it *)

(** UTF-8 bytes of a code unit below 256. *)
Definition utf8 (c : ascii) : list nat :=
  let n := nat_of_ascii c in
  if n <? 128 then [n] else [192 + n / 64; 128 + n mod 64].

(** Bytes the [application/x-www-form-urlencoded] serializer keeps:
    the alphanumerics and [*], [-], [.], [_]. *)
Definition urlencodedKeeps (b : nat) : bool :=
  (b =? 42) || (b =? 45) || (b =? 46) || (b =? 95)
  || ((48 <=? b) && (b <=? 57))
  || ((65 <=? b) && (b <=? 90))
  || ((97 <=? b) && (b <=? 122)).

Definition hexDigit (n : nat) : ascii :=
  nth n (lit "0123456789ABCDEF") "0"%char.

Definition encodeByte (b : nat) : str :=
  if b =? 32 then lit "+"
  else if urlencodedKeeps b then [ascii_of_nat b]
  else "%"%char :: hexDigit (b / 16) :: hexDigit (b mod 16) :: [].

Definition urlencode (s : str) : str :=
  flat_map (fun c => flat_map encodeByte (utf8 c)) s.

(** The list of name-value pairs of a [URLSearchParams] object. *)
Definition URLSearchParams := list (str * str).

Definition append (params : URLSearchParams) (name val : str)
  : URLSearchParams :=
  params ++ [(name, val)].

Definition toString (params : URLSearchParams) : str :=
  join (lit "&")
    (map (fun p => urlencode (fst p) ++ lit "=" ++ urlencode (snd p)) params).

(** *** [UniversalApi] *)

(** An options object, as [Object.entries] lists it. *)
Definition options := list (str * value).

(** [value !== undefined && value !== null]. *)
Definition present (v : value) : bool :=
  match v with
  | VUndefined | VNull => false
  | _ => true
  end.

Definition esEndings : list str :=
  [lit "ch"; lit "sh"; lit "x"; lit "z"; lit "o"].

Fixpoint firstEsEnding (word : str) (endings : list str) : bool :=
  match endings with
  | [] => false
  | ending :: rest =>
      if endsWith (toLowerCase word) ending then true
      else firstEsEnding word rest
  end.

(** [UniversalApi.pluralize]. *)
Definition pluralize (word : str) : str :=
  if negb (truthy word) then word
  else if endsWith (toLowerCase word) (lit "s") then word
  else if (1 <? length word)
          && str_eqb (toLowerCase (slice_from word (-1))) (lit "y")
          && negb (includes (lit "aeiou")
                     (toLowerCase (slice word (-2) (-1))))
  then slice word 0 (-1) ++ lit "ies"
  else if firstEsEnding word esEndings then word ++ lit "es"
  else word ++ lit "s".

(** The body of the [for] loop of [getAll]. *)
Definition appendPresent (params : URLSearchParams) (entry : str * value)
  : URLSearchParams :=
  let (key, value) := entry in
  if present value then append params key (String_ value) else params.

(** The query part that [getAll] builds. *)
Definition getAllQuery (opts : option options) : str :=
  match opts with
  | Some entries =>
      let params := fold_left appendPresent entries [] in
      let queryString := toString params in
      if truthy queryString then lit "?" ++ queryString else []
  | None => []
  end.

(** A request handed to the request executor. *)
Record request := {
  endpoint : str;
  method : option str;
  body : option options;
}.

Definition getAll (entityName : str) (opts : option options) : request :=
  {| endpoint := lit "/api/" ++ pluralize entityName ++ lit "/"
                 ++ getAllQuery opts;
     method := None; body := None |}.

Definition getOne (entityName id : str) : request :=
  {| endpoint := lit "/api/" ++ pluralize entityName ++ lit "/" ++ id;
     method := None; body := None |}.

Definition create (entityName : str) (data : options) : request :=
  {| endpoint := lit "/api/" ++ pluralize entityName ++ lit "/";
     method := Some (lit "POST"); body := Some data |}.

Definition update (entityName id : str) (data : options) : request :=
  {| endpoint := lit "/api/" ++ pluralize entityName ++ lit "/" ++ id;
     method := Some (lit "PATCH"); body := Some data |}.

Definition remove (entityName id : str) : request :=
  {| endpoint := lit "/api/" ++ pluralize entityName ++ lit "/" ++ id;
     method := Some (lit "DELETE"); body := None |}.

(** The query string as the specification words it: the entries whose
    value is neither undefined nor null, as name-value pairs joined by
    an ampersand after a question mark, or nothing when no entry is
    left. *)
Definition presentEntries (opts : option options) : options :=
  match opts with
  | Some entries => filter (fun e => present (snd e)) entries
  | None => []
  end.

Definition pairOf (e : str * value) : str :=
  urlencode (fst e) ++ lit "=" ++ urlencode (String_ (snd e)).

Definition specQuery (opts : option options) : str :=
  match presentEntries opts with
  | [] => []
  | kept => lit "?" ++ join (lit "&") (map pairOf kept)
  end.

(** A string that the serializer leaves as it is. *)
Definition plain (s : str) : bool :=
  forallb (fun c => urlencodedKeeps (nat_of_ascii c)) s.

(** The units that the serializer writes for a name or a value: those
    it keeps, the plus sign and the percent sign. *)
Definition encodedUnit (c : ascii) : bool :=
  urlencodedKeeps (nat_of_ascii c)
  || char_eqb c "+"%char || char_eqb c "%"%char.

(** How often a unit occurs in a string. *)
Definition countUnit (c : ascii) (s : str) : nat :=
  length (filter (char_eqb c) s).

End Api.

(* ===================================================================== *)
(** ** The hooks ([hooks.ts]) *)
(* ===================================================================== *)

(** A hook is modelled by its state cells ([useState], [useRef]) and by
    the code of its functions over them.  An asynchronous function is
    cut at its [await]: the part before runs when the function is
    called and issues a call on the client, the part after runs when
    that call settles.  An instance steps on events: the effect and its
    cleanup, a call of a function the hook returns, the settling of a
    pending call.  The reactive runtime and the request executor are not
    modelled beyond that. *)

Module Hooks.

Import Api.

(** An [Error] object. *)
Record Error := { message : str }.

(** What a [catch] clause may receive: an [Error] or any other value. *)
Inductive thrown :=
| ThrownError (e : Error)
| ThrownValue (v : value).

(** [err instanceof Error ? err : new Error(String(err))]. *)
Definition toError (err : thrown) : Error :=
  match err with
  | ThrownError e => e
  | ThrownValue v => {| message := String_ v |}
  end.

Definition newline : str := [ascii_of_nat 10].
Definition quote : str := [ascii_of_nat 34].

(** The error of [getApi] before [initApi]. *)
Definition notInitialized : Error :=
  {| message :=
       lit "API not initialized. Call initApi(authApi) first, typically in main.tsx or App.tsx."
       ++ newline ++ lit "Example:" ++ newline
       ++ lit "  import { createAuthApi } from " ++ quote
       ++ lit "@rationalbloks/frontblok-auth" ++ quote ++ lit ";" ++ newline
       ++ lit "  import { initApi } from " ++ quote
       ++ lit "@rationalbloks/frontblok-crud" ++ quote ++ lit ";" ++ newline
       ++ lit "  const authApi = createAuthApi(API_URL);" ++ newline
       ++ lit "  initApi(authApi);" |}.

(** The error of [useEntityForm]'s [remove] without an id. *)
Definition invalidOperation : Error :=
  {| message := lit "Cannot delete: no entity ID provided" |}.

(** How an awaited promise settles. *)
Inductive settled (A : Type) :=
| Resolved (a : A)
| Rejected (err : thrown).
Arguments Resolved {A} a.
Arguments Rejected {A} err.

(** *** Code over state cells: a state and completion monad *)

(** A block of code over the cells [C] ends normally with a value or
    abruptly with a thrown value. *)
Definition M (C A : Type) : Type := C -> C * (A + thrown).

Definition ret {C A} (a : A) : M C A := fun c => (c, inl a).

Definition bind {C A B} (m : M C A) (k : A -> M C B) : M C B :=
  fun c =>
    match m c with
    | (c', inl a) => k a c'
    | (c', inr e) => (c', inr e)
    end.

Definition throw {C A} (e : thrown) : M C A := fun c => (c, inr e).

(** [try { m } catch (err) { h err }]. *)
Definition tryCatch {C A} (m : M C A) (h : thrown -> M C A) : M C A :=
  fun c =>
    match m c with
    | (c', inl a) => (c', inl a)
    | (c', inr e) => h e c'
    end.

(** [try { m } finally { f }]: [f] runs in either case and the
    completion of [m] stands unless [f] throws. *)
Definition tryFinally {C A} (m : M C A) (f : M C unit) : M C A :=
  fun c =>
    match m c with
    | (c', r) =>
        match f c' with
        | (c'', inl _) => (c'', r)
        | (c'', inr e) => (c'', inr e)
        end
    end.

(** [await p], once [p] has settled. *)
Definition await {C A} (p : settled A) : M C A :=
  match p with
  | Resolved a => ret a
  | Rejected e => throw e
  end.

Definition when {C} (b : bool) (m : M C unit) : M C unit :=
  if b then m else ret tt.

Declare Scope code_scope.
Delimit Scope code_scope with code.
Notation "x <- m ;; k" := (bind m (fun x => k))
  (at level 61, m at next level, right associativity) : code_scope.
Notation "m ;; k" := (bind m (fun _ => k))
  (at level 61, right associativity) : code_scope.
Local Open Scope code_scope.

(** *** The entity client as the hooks see it *)

(** A call on the client returned by [getApi]. *)
Inductive apiCall :=
| CallGetAll (entityName : str) (opts : option options)
| CallGetOne (entityName id : str)
| CallCreate (entityName : str) (input : options)
| CallUpdate (entityName id : str) (input : options)
| CallRemove (entityName id : str).

Definition requestOf (call : apiCall) : request :=
  match call with
  | CallGetAll e o => getAll e o
  | CallGetOne e id => getOne e id
  | CallCreate e input => create e input
  | CallUpdate e id input => update e id input
  | CallRemove e id => remove e id
  end.

(** A hook instance: its state cells, the calls it has issued on the
    client, the calls among them that have not settled (by position
    in [issued]), and the rejections of the promises that its
    asynchronous functions returned. *)
Record instance (C : Type) := {
  cells : C;
  issued : list apiCall;
  pending : list nat;
  rejections : list thrown;
}.
Arguments cells {C} i.
Arguments issued {C} i.
Arguments pending {C} i.
Arguments rejections {C} i.

Definition isPending {C} (n : nat) (i : instance C) : bool :=
  existsb (Nat.eqb n) (pending i).

(** Runs a block on the cells; an abrupt end rejects the promise. *)
Definition runBlock {C A} (m : M C A) (i : instance C) : instance C :=
  match m (cells i) with
  | (c, inl _) =>
      {| cells := c; issued := issued i; pending := pending i;
         rejections := rejections i |}
  | (c, inr e) =>
      {| cells := c; issued := issued i; pending := pending i;
         rejections := rejections i ++ [e] |}
  end.

(** Sends a call: it is pending until it settles. *)
Definition send {C} (call : apiCall) (i : instance C) : instance C :=
  {| cells := cells i; issued := issued i ++ [call];
     pending := pending i ++ [length (issued i)];
     rejections := rejections i |}.

Definition settleCall {C} (n : nat) (i : instance C) : instance C :=
  {| cells := cells i; issued := issued i;
     pending := filter (fun m => negb (Nat.eqb n m)) (pending i);
     rejections := rejections i |}.

(** [!!id] for an optional string. *)
Definition truthyId (id : option str) : bool :=
  match id with
  | Some s => truthy s
  | None => false
  end.

(** The string behind an id that passed the [!id] guard. *)
Definition idString (id : option str) : str :=
  match id with
  | Some s => s
  | None => []
  end.

Definition getCells {C} : M C C := fun c => (c, inl c).

(** **** [useEntityList] *)

Module UseEntityList.
Section WithEntity.

Variable T : Type.

Record Cells := {
  items : list T;
  loading : bool;
  error : option Error;
  isMounted : bool;
}.

Definition setItems (v : list T) : M Cells unit := fun c =>
  ({| items := v; loading := loading c; error := error c;
      isMounted := isMounted c |}, inl tt).
Definition setLoading (v : bool) : M Cells unit := fun c =>
  ({| items := items c; loading := v; error := error c;
      isMounted := isMounted c |}, inl tt).
Definition setError (v : option Error) : M Cells unit := fun c =>
  ({| items := items c; loading := loading c; error := v;
      isMounted := isMounted c |}, inl tt).
Definition setMounted (v : bool) : M Cells unit := fun c =>
  ({| items := items c; loading := loading c; error := error c;
      isMounted := v |}, inl tt).

(** [if (isMounted.current) { m }]. *)
Definition ifMounted (m : M Cells unit) : M Cells unit :=
  c <- getCells ;; when (isMounted c) m.

(** [fetchData] up to its [await]. *)
Definition fetchData_before : M Cells unit :=
  setLoading true ;; setError None.

(** [fetchData] from its [await] on. *)
Definition fetchData_after (p : settled (list T)) : M Cells unit :=
  tryFinally
    (tryCatch
       (data <- await p ;; ifMounted (setItems data))
       (fun err => ifMounted (setError (Some (toError err)))))
    (ifMounted (setLoading false)).

Inductive event :=
| RunEffect
| Cleanup
| Refetch
| Settle (n : nat) (p : settled (list T)).

Definition initial : instance Cells :=
  {| cells := {| items := []; loading := true; error := None;
                 isMounted := true |};
     issued := []; pending := []; rejections := [] |}.

Section Bound.

(** Whether [initApi] has run, and the arguments of the hook. *)
Variable ready : bool.
Variable entityName : str.
Variable opts : option options.

Definition fetchData (i : instance Cells) : instance Cells :=
  let i1 := runBlock fetchData_before i in
  if ready then send (CallGetAll entityName opts) i1
  else runBlock
         (fetchData_after (Rejected (ThrownError notInitialized))) i1.

Definition step (i : instance Cells) (ev : event) : instance Cells :=
  match ev with
  | RunEffect => fetchData (runBlock (setMounted true) i)
  | Cleanup => runBlock (setMounted false) i
  | Refetch => fetchData i
  | Settle n p =>
      if isPending n i
      then runBlock (fetchData_after p) (settleCall n i)
      else i
  end.

Definition run (evs : list event) (i : instance Cells)
  : instance Cells :=
  fold_left step evs i.

(** Two calls of [refetch] in a row: two requests in flight. *)
Definition twoInFlight (i : instance Cells) : instance Cells :=
  run [Refetch; Refetch] i.

End Bound.

Definition isSettle (ev : event) : bool :=
  match ev with
  | Settle _ _ => true
  | _ => false
  end.

(** The events that call [fetchData]. *)
Definition isFetch (ev : event) : bool :=
  match ev with
  | RunEffect | Refetch => true
  | _ => false
  end.

End WithEntity.
End UseEntityList.

(** **** [useEntity] *)

Module UseEntity.
Section WithEntity.

Variable T : Type.

Record Cells := {
  item : option T;
  loading : bool;
  error : option Error;
  isMounted : bool;
}.

Definition setItem (v : option T) : M Cells unit := fun c =>
  ({| item := v; loading := loading c; error := error c;
      isMounted := isMounted c |}, inl tt).
Definition setLoading (v : bool) : M Cells unit := fun c =>
  ({| item := item c; loading := v; error := error c;
      isMounted := isMounted c |}, inl tt).
Definition setError (v : option Error) : M Cells unit := fun c =>
  ({| item := item c; loading := loading c; error := v;
      isMounted := isMounted c |}, inl tt).
Definition setMounted (v : bool) : M Cells unit := fun c =>
  ({| item := item c; loading := loading c; error := error c;
      isMounted := v |}, inl tt).

Definition ifMounted (m : M Cells unit) : M Cells unit :=
  c <- getCells ;; when (isMounted c) m.

(** The branch of [fetchData] for a missing id. *)
Definition fetchData_noId : M Cells unit :=
  setItem None ;; setLoading false.

Definition fetchData_before : M Cells unit :=
  setLoading true ;; setError None.

Definition fetchData_after (p : settled T) : M Cells unit :=
  tryFinally
    (tryCatch
       (data <- await p ;; ifMounted (setItem (Some data)))
       (fun err =>
          ifMounted (setError (Some (toError err)) ;; setItem None)))
    (ifMounted (setLoading false)).

Inductive event :=
| RunEffect
| Cleanup
| Refetch
| Settle (n : nat) (p : settled T).

(** The cells as [useState] and [useRef] create them: [loading]
    starts as [!!id]. *)
Definition initial (id : option str) : instance Cells :=
  {| cells := {| item := None; loading := truthyId id; error := None;
                 isMounted := true |};
     issued := []; pending := []; rejections := [] |}.

Section Bound.

Variable ready : bool.
Variable entityName : str.
Variable id : option str.

Definition fetchData (i : instance Cells) : instance Cells :=
  if negb (truthyId id) then runBlock fetchData_noId i
  else
    let i1 := runBlock fetchData_before i in
    if ready then send (CallGetOne entityName (idString id)) i1
    else runBlock
           (fetchData_after (Rejected (ThrownError notInitialized))) i1.

Definition step (i : instance Cells) (ev : event) : instance Cells :=
  match ev with
  | RunEffect => fetchData (runBlock (setMounted true) i)
  | Cleanup => runBlock (setMounted false) i
  | Refetch => fetchData i
  | Settle n p =>
      if isPending n i
      then runBlock (fetchData_after p) (settleCall n i)
      else i
  end.

Definition run (evs : list event) (i : instance Cells)
  : instance Cells :=
  fold_left step evs i.

(** Two calls of [refetch] in a row: two requests in flight. *)
Definition twoInFlight (i : instance Cells) : instance Cells :=
  run [Refetch; Refetch] i.

End Bound.

Definition isSettle (ev : event) : bool :=
  match ev with
  | Settle _ _ => true
  | _ => false
  end.

(** The events that call [fetchData]. *)
Definition isFetch (ev : event) : bool :=
  match ev with
  | RunEffect | Refetch => true
  | _ => false
  end.

(** The state of the hook in create mode: no call issued or pending,
    no item, not loading, no error. *)
Definition settledEmpty (i : instance Cells) : Prop :=
  issued i = [] /\ pending i = []
  /\ item (cells i) = None /\ loading (cells i) = false
  /\ error (cells i) = None.

End WithEntity.
End UseEntity.

(** **** [useMutation] *)

Module UseMutation.
Section WithEntity.

Variable T : Type.

Record Cells := {
  data : option T;
  loading : bool;
  error : option Error;
}.

Definition setData (v : option T) : M Cells unit := fun c =>
  ({| data := v; loading := loading c; error := error c |}, inl tt).
Definition setLoading (v : bool) : M Cells unit := fun c =>
  ({| data := data c; loading := v; error := error c |}, inl tt).
Definition setError (v : option Error) : M Cells unit := fun c =>
  ({| data := data c; loading := loading c; error := v |}, inl tt).

Definition reset : M Cells unit :=
  setData None ;; setError None ;; setLoading false.

(** [create], [update] and [remove] up to their [await]. *)
Definition mutate_before : M Cells unit :=
  setLoading true ;; setError None.

(** The [catch] clause of the three functions. *)
Definition rethrow {A} (err : thrown) : M Cells A :=
  let error := toError err in
  setError (Some error) ;; throw (ThrownError error).

Definition create_after (p : settled T) : M Cells T :=
  tryFinally
    (tryCatch (result <- await p ;; setData (Some result) ;; ret result)
              rethrow)
    (setLoading false).

Definition update_after (p : settled T) : M Cells T :=
  tryFinally
    (tryCatch (result <- await p ;; setData (Some result) ;; ret result)
              rethrow)
    (setLoading false).

Definition remove_after (p : settled unit) : M Cells unit :=
  tryFinally
    (tryCatch (await p ;; setData None) rethrow)
    (setLoading false).

Inductive op :=
| Create (input : options)
| Update (id : str) (input : options)
| Remove (id : str).

(** The events of an instance.  [Unmount] runs no code of the hook,
    which registers no effect. *)
Inductive event :=
| Mutate (o : op)
| Settle (n : nat) (p : settled T)
| Reset
| Unmount.

Definition initial : instance Cells :=
  {| cells := {| data := None; loading := false; error := None |};
     issued := []; pending := []; rejections := [] |}.

(** A [DELETE] resolves with no value. *)
Definition void (p : settled T) : settled unit :=
  match p with
  | Resolved _ => Resolved tt
  | Rejected e => Rejected e
  end.

(** The rest of the function that issued [call]. *)
Definition resume (call : apiCall) (p : settled T) (i : instance Cells)
  : instance Cells :=
  match call with
  | CallRemove _ _ => runBlock (remove_after (void p)) i
  | CallUpdate _ _ _ => runBlock (update_after p) i
  | _ => runBlock (create_after p) i
  end.

Section Bound.

Variable ready : bool.
Variable entityName : str.

Definition callOf (o : op) : apiCall :=
  match o with
  | Create input => CallCreate entityName input
  | Update id input => CallUpdate entityName id input
  | Remove id => CallRemove entityName id
  end.

Definition mutate (o : op) (i : instance Cells) : instance Cells :=
  let i1 := runBlock mutate_before i in
  if ready then send (callOf o) i1
  else resume (callOf o) (Rejected (ThrownError notInitialized)) i1.

Definition step (i : instance Cells) (ev : event) : instance Cells :=
  match ev with
  | Mutate o => mutate o i
  | Settle n p =>
      if isPending n i then
        match nth_error (issued i) n with
        | Some call => resume call p (settleCall n i)
        | None => i
        end
      else i
  | Reset => runBlock reset i
  | Unmount => i
  end.

Definition run (evs : list event) (i : instance Cells)
  : instance Cells :=
  fold_left step evs i.

(** The calls that a sequence of events makes on the client. *)
Definition callsOf (evs : list event) : list apiCall :=
  flat_map (fun ev => match ev with
                      | Mutate o => [callOf o]
                      | _ => []
                      end) evs.

End Bound.

End WithEntity.
End UseMutation.

(** **** [useEntityForm] *)

Module UseEntityForm.
Section WithEntity.

Variable T : Type.

(** The two hooks that the form hook calls. *)
Record Form := {
  entity : instance (UseEntity.Cells T);
  mutation : instance (UseMutation.Cells T);
}.

Definition item (f : Form) : option T := UseEntity.item (cells (entity f)).
Definition loadingEntity (f : Form) : bool :=
  UseEntity.loading (cells (entity f)).
Definition saving (f : Form) : bool :=
  UseMutation.loading (cells (mutation f)).
Definition loading (f : Form) : bool := loadingEntity f || saving f.

(** [loadError || mutationError]. *)
Definition error (f : Form) : option Error :=
  match UseEntity.error (cells (entity f)) with
  | Some e => Some e
  | None => UseMutation.error (cells (mutation f))
  end.

Definition isEdit (id : option str) : bool := truthyId id.

Section Bound.

Variable ready : bool.
Variable entityName : str.
Variable id : option str.

Definition initial : Form :=
  {| entity := UseEntity.initial T id;
     mutation := UseMutation.initial T |}.

Definition save (input : options) (f : Form) : Form :=
  if isEdit id && truthyId id then
    {| entity := entity f;
       mutation := UseMutation.mutate ready entityName
                     (UseMutation.Update (idString id) input)
                     (mutation f) |}
  else
    {| entity := entity f;
       mutation := UseMutation.mutate ready entityName
                     (UseMutation.Create input) (mutation f) |}.

(** [remove]: the form after the call, and the error thrown by
    the guard when there is one. *)
Definition remove (f : Form) : Form * option thrown :=
  if negb (isEdit id) || negb (truthyId id) then
    (f, Some (ThrownError invalidOperation))
  else
    ({| entity := entity f;
        mutation := UseMutation.mutate ready entityName
                      (UseMutation.Remove (idString id))
                      (mutation f) |}, None).

End Bound.

End WithEntity.
End UseEntityForm.

End Hooks.

(* ===================================================================== *)
(** ** Case conversion ([utils.ts]) *)
(* ===================================================================== *)

Module Casing.

(** The class [a-z] of a regular expression. *)
Definition isLowerAZ (c : ascii) : bool :=
  (97 <=? nat_of_ascii c) && (nat_of_ascii c <=? 122).

(** The class [A-Z]. *)
Definition isUpperAZ (c : ascii) : bool :=
  (65 <=? nat_of_ascii c) && (nat_of_ascii c <=? 90).

(** The class [\s] below 256: tab to carriage return, the space and the
    no-break space. *)
Definition isSpace (c : ascii) : bool :=
  let n := nat_of_ascii c in
  ((9 <=? n) && (n <=? 13)) || (n =? 32) || (n =? 160).

(** The class [[\s-]]. *)
Definition isSeparator (c : ascii) : bool :=
  isSpace c || char_eqb c "-"%char.

(** [s.replace(/([a-z])([A-Z])/g, '$1_$2')]: the matches are searched
    from left to right and do not overlap. *)
Fixpoint splitHumps (s : str) : str :=
  match s with
  | a :: (b :: rest) as tl =>
      if isLowerAZ a && isUpperAZ b
      then a :: "_"%char :: b :: splitHumps rest
      else a :: splitHumps tl
  | _ => s
  end.

(** [s.replace(/[\s-]+/g, '_')]: each longest run of separators
    becomes one underscore; [inRun] tells that the unit before belongs
    to the run being replaced. *)
Fixpoint joinSeparators (inRun : bool) (s : str) : str :=
  match s with
  | [] => []
  | c :: rest =>
      if isSeparator c then
        if inRun then joinSeparators true rest
        else "_"%char :: joinSeparators true rest
      else c :: joinSeparators false rest
  end.

Definition toSnakeCase (s : str) : str :=
  toLowerCase (joinSeparators false (splitHumps s)).

(** A unit that [toSnakeCase] can leave behind: no upper-case letter
    and no separator. *)
Definition snakeUnit (c : ascii) : bool :=
  negb (is_upper c) && negb (isSeparator c).

End Casing.

(* ===================================================================== *)
(** ** Schema utilities ([types.ts], [utils.ts]) *)
(* ===================================================================== *)

Module Schema.

Inductive FieldType :=
| TString | TText | TInteger | TDecimal | TBoolean
| TDatetime | TDate | TUuid | TJson.

(** A value of type [unknown]: numbers are integers. *)
#[warnings="-register-all"] Inductive jsValue :=
| JUndefined
| JNull
| JBool (b : bool)
| JNum (n : Z)
| JStr (s : str)
| JArray (elements : list jsValue)
| JObject (entries : list (str * jsValue)).

Inductive OnDelete := Cascade | SetNull | Restrict | NoAction.

(** [FieldConfig]: an optional property that is absent is [None], and
    [JUndefined] for [default]. *)
Record FieldConfig := {
  type : FieldType;
  required : option bool;
  unique : option bool;
  max_length : option Z;
  precision : option Z;
  scale : option Z;
  enum : option (list str);
  foreign_key : option str;
  nullable : option bool;
  default : jsValue;
  description : option str;
  index : option bool;
  on_delete : option OnDelete;
  _id : option str;
}.

(** [EntityConfig], as [Object.entries] lists it. *)
Definition EntityConfig := list (str * FieldConfig).

Record EntityMetadata := {
  singular : str;
  plural : str;
  fields : EntityConfig;
  displayFields : list str;
  searchFields : list str;
}.

(** The table [SCHEMA_TO_TS_TYPE] of [types.ts]. *)
Definition SCHEMA_TO_TS_TYPE (t : FieldType) : str :=
  match t with
  | TString => lit "string"
  | TText => lit "string"
  | TInteger => lit "number"
  | TDecimal => lit "number"
  | TBoolean => lit "boolean"
  | TDatetime => lit "string"
  | TDate => lit "string"
  | TUuid => lit "string"
  | TJson => lit "Record<string, unknown>"
  end.

(** The table [SCHEMA_TO_DEFAULT] of [types.ts]. *)
Definition SCHEMA_TO_DEFAULT (t : FieldType) : jsValue :=
  match t with
  | TString => JStr []
  | TText => JStr []
  | TInteger => JNum 0
  | TDecimal => JNum 0
  | TBoolean => JBool false
  | TDatetime => JStr []
  | TDate => JStr []
  | TUuid => JStr []
  | TJson => JObject []
  end.

(** [schemaTypeToTs], with its own table and the fallback of [||]. *)
Definition schemaTypeToTs (fieldType : FieldType) : str :=
  let mapping (t : FieldType) : str :=
    match t with
    | TString => lit "string"
    | TText => lit "string"
    | TInteger => lit "number"
    | TDecimal => lit "number"
    | TBoolean => lit "boolean"
    | TDatetime => lit "string"
    | TDate => lit "string"
    | TUuid => lit "string"
    | TJson => lit "Record<string, unknown>"
    end in
  if truthy (mapping fieldType) then mapping fieldType else lit "unknown".

(** [a ?? b]. *)
Definition nullish (a b : jsValue) : jsValue :=
  match a with
  | JUndefined | JNull => b
  | _ => a
  end.

Definition isUndefined (v : jsValue) : bool :=
  match v with
  | JUndefined => true
  | _ => false
  end.

Definition getFieldDefault (field : FieldConfig) : jsValue :=
  if negb (isUndefined (default field)) then default field
  else
    let defaults (t : FieldType) : jsValue :=
      match t with
      | TString => JStr []
      | TText => JStr []
      | TInteger => JNum 0
      | TDecimal => JNum 0
      | TBoolean => JBool false
      | TDatetime => JStr []
      | TDate => JStr []
      | TUuid => JStr []
      | TJson => JObject []
      end in
    nullish (defaults (type field)) (JStr []).

(** [Boolean(field.foreign_key?.startsWith('app_users.'))]. *)
Definition isUserForeignKey (field : FieldConfig) : bool :=
  match foreign_key field with
  | Some fk => startsWith fk (lit "app_users.")
  | None => false
  end.

(** The filter of [displayFields], and the guards of
    [getInitialFormData]: not a metadata key and not [user_id]. *)
Definition formField (f : str) : bool :=
  negb (startsWith f (lit "_")) && negb (str_eqb f (lit "user_id")).

Definition isTextual (t : FieldType) : bool :=
  match t with
  | TString | TText => true
  | _ => false
  end.

Definition createEntityMetadata (tableName : str) (fields : EntityConfig)
  : EntityMetadata :=
  let singular := toSingular tableName in
  let plural := toPlural tableName in
  let displayFields := firstn 6 (filter formField (map fst fields)) in
  let searchFields :=
    map fst
      (filter (fun e => negb (startsWith (fst e) (lit "_"))
                        && isTextual (type (snd e)))
         fields) in
  {| singular := singular; plural := plural; fields := fields;
     displayFields := displayFields; searchFields := searchFields |}.

(** [typeof config === 'object'] holds of every [FieldConfig]. *)
Definition getUserFkFields (entityConfig : EntityConfig) : list str :=
  map fst
    (filter (fun e => negb (str_eqb (fst e) (lit "_id"))
                      && true
                      && isUserForeignKey (snd e))
       entityConfig).

(** [data[key] = v] on an object listed in the order of its keys: the
    value of a key that is present is replaced, a new key comes last. *)
Fixpoint assign (data : list (str * jsValue)) (key : str) (v : jsValue)
  : list (str * jsValue) :=
  match data with
  | [] => [(key, v)]
  | (k, old) :: rest =>
      if str_eqb k key then (k, v) :: rest
      else (k, old) :: assign rest key v
  end.

(** The body of the loop of [getInitialFormData], with its two
    [continue]. *)
Definition initialField (data : list (str * jsValue))
           (entry : str * FieldConfig) : list (str * jsValue) :=
  let (fieldName, fieldConfig) := entry in
  if startsWith fieldName (lit "_") then data
  else if str_eqb fieldName (lit "user_id") then data
  else assign data fieldName (getFieldDefault fieldConfig).

Definition getInitialFormData (entityConfig : EntityConfig)
  : list (str * jsValue) :=
  fold_left initialField entityConfig [].

(** The form data in closed form: the fields that are neither metadata
    nor [user_id], each with its default, in the order of the entity. *)
Definition formEntries (entity : EntityConfig) : list (str * jsValue) :=
  map (fun e => (fst e, getFieldDefault (snd e)))
    (filter (fun e => formField (fst e)) entity).

(** An entity with a metadata key, [user_id] and a second foreign key
    into [app_users]. *)
Definition sampleEntity : EntityConfig :=
  let field t fk d :=
    {| type := t; required := None; unique := None; max_length := None;
       precision := None; scale := None; enum := None; foreign_key := fk;
       nullable := None; default := d; description := None; index := None;
       on_delete := None; _id := None |} in
  [(lit "title", field TString None JUndefined);
   (lit "_meta", field TJson None JUndefined);
   (lit "user_id", field TUuid (Some (lit "app_users.id")) JUndefined);
   (lit "done", field TBoolean None (JBool true));
   (lit "owner", field TUuid (Some (lit "app_users.id")) JUndefined)].

End Schema.

(* ===================================================================== *)
(** ** Facts about the string primitives *)
(* ===================================================================== *)

Section StringFacts.

Lemma char_eqb_eq (a b : ascii) : char_eqb a b = true <-> a = b.
Proof. apply Ascii.eqb_eq. Qed.

Lemma char_eqb_refl (a : ascii) : char_eqb a a = true.
Proof. apply Ascii.eqb_refl. Qed.

Lemma str_eqb_eq (a b : str) : str_eqb a b = true <-> a = b.
Proof.
  revert b; induction a as [|x a IH]; intros [|y b]; simpl;
    try (split; intro; [discriminate | congruence]); [tauto|].
  rewrite andb_true_iff, char_eqb_eq, IH.
  split; [intros [-> ->]; reflexivity | intros [= -> ->]; tauto].
Qed.

Lemma str_eqb_refl (a : str) : str_eqb a a = true.
Proof. apply str_eqb_eq; reflexivity. Qed.

Lemma str_eqb_rev (a b : str) : str_eqb (rev a) b = str_eqb a (rev b).
Proof.
  destruct (str_eqb a (rev b)) eqn:E.
  - apply str_eqb_eq in E; subst a.
    rewrite rev_involutive; apply str_eqb_refl.
  - destruct (str_eqb (rev a) b) eqn:E'; [|reflexivity].
    apply str_eqb_eq in E'; subst b.
    rewrite rev_involutive, str_eqb_refl in E; discriminate.
Qed.

Lemma startsWith_app (a rest p : str) :
  length a = length p -> startsWith (a ++ rest) p = str_eqb a p.
Proof.
  revert p; induction a as [|x a IH]; intros [|y p] Hlen;
    simpl in *; try discriminate; [reflexivity|].
  rewrite IH by lia.
  rewrite (Bool.eq_true_iff_eq (char_eqb y x) (char_eqb x y)); [reflexivity|].
  rewrite !char_eqb_eq; split; congruence.
Qed.

Lemma startsWith_short (s p : str) :
  length s < length p -> startsWith s p = false.
Proof.
  revert p; induction s as [|y s IH]; intros [|x p] Hlen;
    simpl in *; try lia; try reflexivity.
  rewrite IH by lia; apply andb_false_r.
Qed.

(** [endsWith] read from the end: a prefix test on the reversed
    string. *)
Lemma endsWith_rev (r e : str) :
  endsWith (rev r) e = startsWith r (rev e).
Proof.
  unfold endsWith. rewrite length_rev.
  destruct (Nat.leb_spec (length e) (length r)) as [Hle|Hlt]; simpl.
  - transitivity
      (startsWith (firstn (length e) r ++ skipn (length e) r) (rev e));
      [|rewrite firstn_skipn; reflexivity].
    rewrite startsWith_app by (rewrite length_firstn, length_rev; lia).
    rewrite skipn_rev.
    replace (length r - (length r - length e)) with (length e) by lia.
    apply str_eqb_rev.
  - symmetry; apply startsWith_short; rewrite length_rev; lia.
Qed.

Lemma rel_index_neg (len k : nat) :
  0 < k -> rel_index len (- Z.of_nat k) = len - k.
Proof.
  intros Hk. unfold rel_index.
  destruct (Z.ltb_spec (- Z.of_nat k) 0); lia.
Qed.

(** [s.slice(0, -k)] drops the last [k] units. *)
Lemma slice_drop_rev (r : str) (k : nat) :
  0 < k -> slice (rev r) 0 (- Z.of_nat k) = rev (skipn k r).
Proof.
  intros Hk. unfold slice. rewrite rel_index_neg, length_rev by assumption.
  change (rel_index (length r) 0) with 0.
  rewrite Nat.sub_0_r. cbn [skipn].
  rewrite firstn_rev. f_equal.
  destruct (le_lt_dec k (length r)) as [Hle|Hlt].
  - replace (length r - (length r - k)) with k by lia. reflexivity.
  - rewrite !skipn_all2 by lia. reflexivity.
Qed.

Lemma slice_drop1_rev (r : str) : slice (rev r) 0 (-1) = rev (skipn 1 r).
Proof. apply (slice_drop_rev r (k := 1)); lia. Qed.

Lemma slice_drop2_rev (r : str) : slice (rev r) 0 (-2) = rev (skipn 2 r).
Proof. apply (slice_drop_rev r (k := 2)); lia. Qed.

Lemma slice_drop3_rev (r : str) : slice (rev r) 0 (-3) = rev (skipn 3 r).
Proof. apply (slice_drop_rev r (k := 3)); lia. Qed.

(** [s.slice(-1)] is the last unit. *)
Lemma slice_last_rev (r : str) : slice_from (rev r) (-1) = rev (firstn 1 r).
Proof.
  unfold slice_from. change (-1)%Z with (- Z.of_nat 1)%Z.
  rewrite rel_index_neg, length_rev by lia.
  rewrite skipn_rev. f_equal.
  destruct r as [|c r]; [reflexivity|].
  replace (length (c :: r) - (length (c :: r) - 1)) with 1
    by (cbn [length]; lia).
  reflexivity.
Qed.

(** [s.slice(-2, -1)] is the unit before the last one. *)
Lemma slice_second_last_rev (r : str) :
  slice (rev r) (-2) (-1) = rev (firstn 1 (skipn 1 r)).
Proof.
  unfold slice.
  change (-1)%Z with (- Z.of_nat 1)%Z. change (-2)%Z with (- Z.of_nat 2)%Z.
  rewrite !rel_index_neg, length_rev by lia.
  destruct r as [|c1 [|c2 r]]; [reflexivity | reflexivity |].
  cbn [length skipn firstn].
  replace (S (S (length r)) - 1 - (S (S (length r)) - 2)) with 1 by lia.
  replace (S (S (length r)) - 2) with (length r) by lia.
  change (rev (c1 :: c2 :: r)) with ((rev r ++ [c2]) ++ [c1]).
  rewrite <- app_assoc.
  rewrite <- (length_rev r) at 1.
  rewrite skipn_app, skipn_all, Nat.sub_diag. reflexivity.
Qed.

Lemma toLowerCase_rev (r : str) : toLowerCase (rev r) = rev (toLowerCase r).
Proof. apply map_rev. Qed.

Lemma truthy_rev (r : str) : truthy (rev r) = truthy r.
Proof.
  destruct r as [|c r]; [reflexivity|]. simpl.
  destruct (rev r ++ [c]) eqn:E; [|reflexivity].
  apply app_eq_nil in E; destruct E; discriminate.
Qed.

Lemma app_lit_rev (r e : str) : rev r ++ e = rev (rev e ++ r).
Proof. rewrite rev_app_distr, rev_involutive. reflexivity. Qed.

End StringFacts.

(* ===================================================================== *)
(** ** The naming engine read from the end of the word *)
(* ===================================================================== *)

(** Case analysis on the final units: comparisons between known
    units are evaluated, the others are split. *)
Ltac eval_closed :=
  repeat match goal with
    | |- context [char_eqb ?a ?b] =>
        let v := eval vm_compute in (char_eqb a b) in
        match v with
        | true => change (char_eqb a b) with true
        | false => change (char_eqb a b) with false
        end
    end.

Ltac split_unit a b :=
  let E := fresh "E" in
  destruct (char_eqb a b) eqn:E;
  [apply char_eqb_eq in E; try subst|].

(** A rule that the known units exclude. *)
Ltac wrong_rule :=
  match goal with
  | R : ruleR (?c :: _) = _ |- _ =>
      tryif is_var c then fail
      else (exfalso; clear - R; vm_compute in R; discriminate R)
  end.

Ltac wrong_length :=
  match goal with
  | H : _ :: _ = _ |- _ =>
      exfalso; clear - H; apply (f_equal (@length ascii)) in H;
      cbn [length] in H; lia
  end.

(** A comparison that was assumed to fail and holds of the known
    units. *)
Ltac wrong_unit :=
  match goal with
  | E : char_eqb ?a ?b = false |- _ =>
      let v := eval vm_compute in (char_eqb a b) in
      match v with
      | true => exfalso; clear - E; vm_compute in E; discriminate E
      end
  end.

Ltac split_units :=
  repeat (eval_closed; cbn;
          try (intros; discriminate); try (intros; reflexivity);
          try wrong_rule; try (intros; wrong_length); try wrong_unit;
          match goal with
          | |- (_ :: _ = _ :: _) -> _ =>
              let H := fresh "H" in
              intro H; inversion H; subst; clear H
          | |- context [char_eqb ?a ?b] => split_unit a b
          | |- context [match ?l with _ => _ end] => is_var l; destruct l
          | |- context [length ?l] => is_var l; destruct l
          end).

Section NamingFacts.

Lemma toPlural_by_rule (s : str) :
  toPlural s =
  match rule_of s with
  | Unchanged => s
  | YToIes => slice s 0 (-1) ++ lit "ies"
  | AppendEs => s ++ lit "es"
  | AppendS => s ++ lit "s"
  end.
Proof.
  unfold toPlural, rule_of.
  destruct (negb (truthy s)); [reflexivity|].
  destruct (endsWith (toLowerCase s) (lit "s")); [reflexivity|].
  destruct (consonantY s); [reflexivity|].
  destruct (firstEsEnding s esEndings); reflexivity.
Qed.

Lemma rev_short (l : str) : length l <= 1 -> rev l = l.
Proof.
  destruct l as [|a [|b l]]; simpl; intros; try reflexivity; lia.
Qed.

Lemma rule_of_rev (r : str) : rule_of (rev r) = ruleR r.
Proof.
  unfold rule_of, ruleR, consonantY.
  cbn [firstEsEnding esEndings existsb].
  rewrite truthy_rev, length_rev, slice_last_rev, slice_second_last_rev.
  rewrite !toLowerCase_rev, !endsWith_rev, str_eqb_rev.
  rewrite (rev_short (toLowerCase (firstn 1 (skipn 1 r))))
    by (unfold toLowerCase; rewrite length_map, length_firstn; lia).
  destruct (negb (truthy r)); [reflexivity|].
  destruct (startsWith (toLowerCase r) (rev (lit "s"))) eqn:E;
    change (rev (lit "s")) with (lit "s") in E; rewrite E; [reflexivity|].
  change (rev (lit "y")) with (lit "y").
  match goal with |- (if ?b then _ else _) = _ => destruct b end;
    [reflexivity|].
  repeat match goal with
         | |- context [startsWith ?a ?b] => destruct (startsWith a b)
         end; reflexivity.
Qed.

Lemma toPlural_rev (r : str) : toPlural (rev r) = rev (toPluralR r).
Proof.
  rewrite toPlural_by_rule, rule_of_rev. unfold toPluralR.
  destruct (ruleR r); try reflexivity.
  - rewrite slice_drop1_rev, app_lit_rev. reflexivity.
  - rewrite app_lit_rev. reflexivity.
Qed.

Lemma toSingular_rev (r : str) : toSingular (rev r) = rev (toSingularR r).
Proof.
  unfold toSingular, toSingularR.
  rewrite !endsWith_rev, length_rev.
  rewrite slice_drop1_rev, slice_drop2_rev, slice_drop3_rev.
  cbn [singularStems existsb].
  rewrite !endsWith_rev.
  change (rev (lit "ies")) with (lit "sei").
  change (rev (lit "es")) with (lit "se").
  change (rev (lit "s")) with (lit "s").
  destruct (startsWith r (lit "sei") && (3 <? length r)).
  - rewrite app_lit_rev. reflexivity.
  - destruct (startsWith r (lit "se") && (2 <? length r)).
    + match goal with |- (if ?b then _ else _) = _ => destruct b end;
        reflexivity.
    + destruct (startsWith r (lit "s") && (1 <? length r)); reflexivity.
Qed.

Lemma restorable_rev (r : str) : restorable (rev r) = restorableR r.
Proof.
  unfold restorable, restorableR. rewrite rule_of_rev.
  cbn [esEndings singularStems existsb].
  rewrite !endsWith_rev, length_rev.
  reflexivity.
Qed.

Lemma roundtripR (r : str) :
  restorableR r = true -> toSingularR (toPluralR r) = r.
Proof.
  unfold restorableR, toPluralR.
  destruct r as [|c1 [|c2 r]]; [discriminate|..];
    match goal with
    | |- context [ruleR ?x] => destruct (ruleR x) eqn:R
    end; try discriminate; unfold toSingularR; split_units.
Qed.

Lemma roundtripR_only (r : str) :
  ruleR r <> Unchanged ->
  toSingularR (toPluralR r) = r -> restorableR r = true.
Proof.
  unfold restorableR, toPluralR.
  destruct r as [|c1 [|c2 r]]; [intros H; elim H; reflexivity|..];
    match goal with
    | |- context [ruleR ?x] => destruct (ruleR x) eqn:R
    end; intros Hrule; try (elim Hrule; reflexivity);
    clear Hrule; unfold toSingularR; split_units.
Qed.

End NamingFacts.

(* ===================================================================== *)
(** ** Properties of the naming engine *)
(* ===================================================================== *)

Section NamingTheorems.

Lemma toPlural_task_roundtrip :
  toPlural (lit "task") = lit "tasks"
  /\ toSingular (lit "tasks") = lit "task".
Proof. split; reflexivity. Qed.

Lemma toPlural_category_roundtrip :
  toPlural (lit "category") = lit "categories"
  /\ toSingular (lit "categories") = lit "category".
Proof. split; reflexivity. Qed.

(** C3, as stated, fails: [shoe] takes the plain [s] rule, and
    [toSingular] reads [shoes] as a stem in [o] followed by [es]. *)
Lemma toSingular_toPlural_shoe :
  regularPluralInput (lit "shoe")
  /\ toPlural (lit "shoe") = lit "shoes"
  /\ toSingular (toPlural (lit "shoe")) = lit "sho"
  /\ toSingular (toPlural (lit "shoe")) <> lit "shoe".
Proof.
  repeat split; try reflexivity; vm_compute; discriminate.
Qed.

(** Other words on which the round trip fails: a final [ie], and an
    upper-case ending. *)
Lemma toSingular_toPlural_other_failures :
  toSingular (toPlural (lit "movie")) = lit "movy"
  /\ toSingular (toPlural (lit "BOX")) = lit "BOXe"
  /\ toSingular (toPlural (lit "CITY")) = lit "CITy".
Proof. repeat split; reflexivity. Qed.

(** C3 (amended): [toSingular] restores every word whose plural it can
    read back: a regular-plural input whose final [y] or [es] ending
    is in lower case and which, when it takes a plain [s], neither
    ends in [ie] (the word [ie] apart) nor in [e] after one of [ch],
    [sh], [ss], [x], [z], [o]. *)
Theorem toSingular_toPlural_restorable (w : str) :
  restorable w = true -> toSingular (toPlural w) = w.
Proof.
  rewrite <- (rev_involutive w).
  rewrite restorable_rev, toPlural_rev, toSingular_rev.
  intros H. f_equal. apply roundtripR. exact H.
Qed.

Lemma toSingular_toPlural_restorable_witness :
  restorable (lit "category") = true
  /\ toSingular (toPlural (lit "category")) = lit "category".
Proof.
  split; [reflexivity|].
  apply (toSingular_toPlural_restorable (lit "category")). reflexivity.
Defined.

(** The condition is exact: no other regular-plural input is
    restored. *)
Lemma restorable_exact (w : str) :
  regularPluralInput w -> toSingular (toPlural w) = w ->
  restorable w = true.
Proof.
  unfold regularPluralInput.
  rewrite <- (rev_involutive w).
  rewrite restorable_rev, toPlural_rev, toSingular_rev, rule_of_rev.
  intros Hrule H. apply roundtripR_only; [exact Hrule|].
  apply (f_equal (@rev ascii)) in H.
  rewrite !rev_involutive in H. exact H.
Qed.

Lemma restorable_regular (w : str) :
  restorable w = true -> regularPluralInput w.
Proof.
  unfold restorable, regularPluralInput.
  destruct (rule_of w); [discriminate|..]; intros _; discriminate.
Qed.

(** Every plural ends in [s], so [toPlural] is idempotent. *)
Lemma ruleR_toPluralR (r : str) : ruleR (toPluralR r) = Unchanged.
Proof.
  unfold toPluralR.
  destruct (ruleR r) eqn:R; [exact R|..];
    unfold ruleR; cbn; eval_closed; reflexivity.
Qed.

Lemma toPlural_idempotent (w : str) : toPlural (toPlural w) = toPlural w.
Proof.
  rewrite <- (rev_involutive w).
  rewrite !toPlural_rev. f_equal.
  unfold toPluralR at 1. rewrite ruleR_toPluralR. reflexivity.
Qed.

End NamingTheorems.

(* ===================================================================== *)
(** ** Properties of the entity client *)
(* ===================================================================== *)

Example getAll_tasks_done :
  Api.endpoint (Api.getAll (lit "tasks")
    (Some [(lit "status", Api.VStr (lit "done")); (lit "limit", Api.VNum (Api.ofZ 10))]))
  = lit "/api/tasks/?status=done&limit=10".
Proof. vm_compute. reflexivity. Qed.

(** Numbers are written as [String] prints them: 1e21 in exponent
    notation, whose plus sign is then encoded, and a half with its
    decimal point. *)
Example getAll_numbers :
  Api.endpoint (Api.getAll (lit "tasks")
    (Some [(lit "limit", Api.VNum (Api.ofZ (10 ^ 21)));
           (lit "ratio", Api.VNum (Api.Finite false 5 (-1)));
           (lit "skip", Api.VNum Api.NaN)]))
  = lit "/api/tasks/?limit=1e%2B21&ratio=0.5&skip=NaN".
Proof. vm_compute. reflexivity. Qed.

Example getAll_space :
  Api.endpoint (Api.getAll (lit "task")
    (Some [(lit "q", Api.VStr (lit "a b&c")); (lit "n", Api.VNum (Api.ofZ (-5)));
           (lit "z", Api.VNum (Api.ofZ 0))]))
  = lit "/api/tasks/?q=a+b%26c&n=-5&z=0".
Proof. vm_compute. reflexivity. Qed.


Section ApiTheorems.

Import Api.

Lemma firstEsEnding_same (word : str) (endings : list str) :
  Api.firstEsEnding word endings = Naming.firstEsEnding word endings.
Proof.
  induction endings as [|ending rest IH]; simpl; [reflexivity|].
  rewrite IH. reflexivity.
Qed.

Lemma pluralize_toPlural (s : str) : pluralize s = toPlural s.
Proof.
  unfold pluralize, toPlural, consonantY.
  rewrite firstEsEnding_same. reflexivity.
Qed.

(** C4: the endpoint pluralisation of the entity client is [toPlural],
    so a singular and a plural entity name address the same path. *)
Theorem pluralize_is_toPlural :
  (forall s : str, pluralize s = toPlural s)
  /\ (forall (s : str) (opts : option options),
         getAll (toPlural s) opts = getAll s opts)
  /\ (forall opts : option options,
         getAll (lit "task") opts = getAll (lit "tasks") opts).
Proof.
  split; [exact pluralize_toPlural|].
  assert (Hall : forall s opts, getAll (toPlural s) opts = getAll s opts).
  { intros s opts. unfold getAll.
    rewrite !pluralize_toPlural, toPlural_idempotent. reflexivity. }
  split; [exact Hall|].
  intros opts. symmetry. apply (Hall (lit "task")).
Qed.

(** The loop of [getAll] keeps the present entries, in order. *)
Lemma fold_appendPresent (entries : options) (params : URLSearchParams) :
  fold_left appendPresent entries params
  = params ++ map (fun e => (fst e, String_ (snd e)))
                (filter (fun e => present (snd e)) entries).
Proof.
  revert params.
  induction entries as [|[key v] entries IH]; intros params; simpl.
  - rewrite app_nil_r. reflexivity.
  - rewrite IH. destruct (present v); simpl; [|reflexivity].
    unfold append. rewrite <- app_assoc. reflexivity.
Qed.

Lemma toString_pairs (kept : options) :
  toString (map (fun e => (fst e, String_ (snd e))) kept)
  = join (lit "&") (map pairOf kept).
Proof. unfold toString. rewrite map_map. reflexivity. Qed.

(** A serialized pair is never empty: it holds an equals sign. *)
Lemma truthy_join_pairs (e : str * value) (kept : options) :
  truthy (join (lit "&") (map pairOf (e :: kept))) = true.
Proof.
  assert (Hpair : forall rest, truthy (pairOf e ++ rest) = true).
  { intros rest. unfold pairOf.
    destruct (urlencode (fst e)); reflexivity. }
  cbn [map join].
  destruct (map pairOf kept).
  - rewrite <- (app_nil_r (pairOf e)). apply Hpair.
  - apply Hpair.
Qed.

Lemma getAllQuery_spec (opts : option options) :
  getAllQuery opts = specQuery opts.
Proof.
  unfold getAllQuery, specQuery, presentEntries.
  destruct opts as [entries|]; [|reflexivity].
  rewrite fold_appendPresent, app_nil_l, toString_pairs.
  destruct (filter (fun e => present (snd e)) entries) as [|e kept];
    [reflexivity|].
  rewrite truthy_join_pairs. reflexivity.
Qed.

(** A name or value made of alphanumerics and [*], [-], [.], [_]
    is written as it is. *)
Lemma urlencode_plain (s : str) : plain s = true -> urlencode s = s.
Proof.
  induction s as [|c s IH]; simpl; [reflexivity|].
  rewrite andb_true_iff. intros [Hc Hs].
  rewrite (IH Hs). clear IH Hs.
  assert (Hlt : nat_of_ascii c < 128).
  { unfold urlencodedKeeps in Hc.
    repeat rewrite orb_true_iff in Hc.
    repeat rewrite andb_true_iff in Hc.
    repeat rewrite Nat.eqb_eq in Hc.
    repeat rewrite Nat.leb_le in Hc. lia. }
  assert (Hsp : nat_of_ascii c <> 32).
  { intros E. rewrite E in Hc. discriminate. }
  unfold utf8.
  destruct (Nat.ltb_spec (nat_of_ascii c) 128) as [_|]; [|lia].
  simpl. unfold encodeByte.
  destruct (Nat.eqb_spec (nat_of_ascii c) 32) as [|_]; [contradiction|].
  rewrite Hc, ascii_nat_embedding. reflexivity.
Qed.

Lemma pairOf_plain (key : str) (v : value) :
  plain key = true -> plain (String_ v) = true ->
  pairOf (key, v) = key ++ lit "=" ++ String_ v.
Proof.
  intros Hk Hv. unfold pairOf. simpl.
  rewrite (urlencode_plain _ Hk), (urlencode_plain _ Hv). reflexivity.
Qed.

(** C5: [getAll] requests [/api/], the plural, a slash and the query
    string of the present entries; without such an entry the path ends
    at the slash. *)
Theorem getAll_endpoint :
  (forall (entityName : str) (opts : option options),
      endpoint (getAll entityName opts)
      = lit "/api/" ++ pluralize entityName ++ lit "/" ++ specQuery opts)
  /\ (forall (entityName : str) (opts : option options),
         presentEntries opts = [] ->
         endpoint (getAll entityName opts)
         = lit "/api/" ++ pluralize entityName ++ lit "/")
  /\ endpoint (getAll (lit "tasks")
                 (Some [(lit "status", VStr (lit "done"));
                        (lit "limit", VNum (ofZ 10))]))
     = lit "/api/tasks/?status=done&limit=10"
  /\ endpoint (getAll (lit "tasks") (Some [(lit "status", VUndefined)]))
     = lit "/api/tasks/".
Proof.
  assert (Hall : forall entityName opts,
             endpoint (getAll entityName opts)
             = lit "/api/" ++ pluralize entityName ++ lit "/"
               ++ specQuery opts).
  { intros entityName opts. unfold getAll. simpl endpoint.
    rewrite getAllQuery_spec. reflexivity. }
  split; [exact Hall|]. split; [|split; vm_compute; reflexivity].
  intros entityName opts Hnone. rewrite Hall.
  unfold specQuery. rewrite Hnone. rewrite !app_nil_r. reflexivity.
Qed.

Lemma getAll_endpoint_witness :
  presentEntries (Some [(lit "status", VNull)]) = []
  /\ endpoint (getAll (lit "task") (Some [(lit "status", VNull)]))
     = lit "/api/tasks/".
Proof.
  split; [reflexivity|].
  apply (proj1 (proj2 getAll_endpoint) (lit "task")
           (Some [(lit "status", VNull)])).
  reflexivity.
Defined.

End ApiTheorems.

(* ===================================================================== *)
(** ** Properties of the fetch hooks *)
(* ===================================================================== *)

Import Hooks.

Section InstanceFacts.

Variable C : Type.

Lemma isPending_runBlock (A : Type) (m : M C A) (n : nat) (i : instance C) :
  isPending n (runBlock m i) = isPending n i.
Proof.
  unfold isPending, runBlock.
  destruct (m (cells i)) as [c [a|e]]; reflexivity.
Qed.

Lemma isPending_send (call : apiCall) (n : nat) (i : instance C) :
  isPending n (send call i) = isPending n i || (n =? length (issued i)).
Proof.
  unfold isPending, send. simpl.
  rewrite existsb_app. simpl. rewrite orb_false_r. reflexivity.
Qed.

Lemma isPending_settleCall (n m : nat) (i : instance C) :
  isPending m (settleCall n i) = isPending m i && negb (n =? m).
Proof.
  unfold isPending, settleCall. simpl.
  induction (pending i) as [|k l IH]; simpl; [reflexivity|].
  destruct (Nat.eqb_spec n k) as [->|Hnk]; simpl.
  - rewrite IH. rewrite (Nat.eqb_sym m k).
    destruct (k =? m); simpl; [rewrite andb_false_r|]; reflexivity.
  - rewrite IH. destruct (Nat.eqb_spec m k) as [->|Hmk]; simpl; [|reflexivity].
    destruct (Nat.eqb_spec n k); [contradiction|reflexivity].
Qed.

Lemma issued_runBlock (A : Type) (m : M C A) (i : instance C) :
  issued (runBlock m i) = issued i.
Proof.
  unfold runBlock. destruct (m (cells i)) as [c [a|e]]; reflexivity.
Qed.

End InstanceFacts.

Section ListHook.

Import UseEntityList.

Variable T : Type.
Variable ready : bool.
Variable entityName : str.
Variable opts : option Api.options.

Local Abbreviation step := (step (T := T) ready entityName opts).
Local Abbreviation run := (run (T := T) ready entityName opts).
Local Abbreviation twoInFlight := (twoInFlight (T := T) ready entityName opts).

(** What a settled request does to a mounted instance. *)
Lemma list_after_resolved (c : Cells T) (d : list T) :
  isMounted c = true ->
  fetchData_after (Resolved d) c
  = ({| items := d; loading := false; error := error c;
        isMounted := true |}, inl tt).
Proof. destruct c; simpl; intros ->; reflexivity. Qed.

Lemma list_after_rejected (c : Cells T) (err : thrown) :
  isMounted c = true ->
  fetchData_after (Rejected err) c
  = ({| items := items c; loading := false; error := Some (toError err);
        isMounted := true |}, inl tt).
Proof. destruct c; simpl; intros ->; reflexivity. Qed.

(** After the cleanup nothing is written. *)
Lemma list_after_unmounted (c : Cells T) (p : settled (list T)) :
  isMounted c = false -> fetchData_after p c = (c, inl tt).
Proof. destruct c, p; simpl; intros ->; reflexivity. Qed.

Lemma list_settle_unmounted (i : instance (Cells T)) (ev : event T) :
  isMounted (cells i) = false -> isSettle ev = true ->
  cells (step i ev) = cells i /\ rejections (step i ev) = rejections i.
Proof.
  intros Hm Hs. destruct ev as [| | |n p]; try discriminate.
  simpl. destruct (isPending n i); [|split; reflexivity].
  unfold runBlock. simpl.
  rewrite (list_after_unmounted _ p Hm). split; reflexivity.
Qed.

Lemma list_settles_unmounted (evs : list (event T)) :
  forall i : instance (Cells T),
    isMounted (cells i) = false -> forallb (@isSettle T) evs = true ->
    cells (run evs i) = cells i /\ rejections (run evs i) = rejections i.
Proof.
  induction evs as [|ev evs IH]; intros i Hm Hs; [split; reflexivity|].
  simpl in Hs. apply andb_true_iff in Hs. destruct Hs as [Hev Hevs].
  destruct (list_settle_unmounted i ev Hm Hev) as [Hc Hr].
  change (run (ev :: evs) i) with (run evs (step i ev)).
  destruct (IH (step i ev)) as [Hc' Hr']; [rewrite Hc; exact Hm|exact Hevs|].
  rewrite Hc', Hr', Hc, Hr. split; reflexivity.
Qed.

(** A settling request on a mounted instance. *)
Lemma list_settle_mounted (i : instance (Cells T)) (n : nat)
      (p : settled (list T)) :
  isMounted (cells i) = true -> isPending n i = true ->
  step i (Settle n p)
  = {| cells := {| items := match p with
                            | Resolved d => d
                            | Rejected _ => items (cells i)
                            end;
                   loading := false;
                   error := match p with
                            | Resolved _ => error (cells i)
                            | Rejected err => Some (toError err)
                            end;
                   isMounted := true |};
       issued := issued i;
       pending := pending (settleCall n i);
       rejections := rejections i |}.
Proof.
  intros Hm Hp. simpl. rewrite Hp. unfold runBlock.
  change (cells (settleCall n i)) with (cells i).
  destruct p as [d|err].
  - rewrite (list_after_resolved _ d Hm). reflexivity.
  - rewrite (list_after_rejected _ err Hm). reflexivity.
Qed.

(** A call of [fetchData] with the client initialised. *)
Lemma list_fetchData_ready (i : instance (Cells T)) :
  ready = true ->
  fetchData ready entityName opts i
  = {| cells := {| items := items (cells i); loading := true; error := None;
                   isMounted := isMounted (cells i) |};
       issued := issued i ++ [CallGetAll entityName opts];
       pending := pending i ++ [length (issued i)];
       rejections := rejections i |}.
Proof. intros ->. reflexivity. Qed.

Lemma list_settle_facts (i : instance (Cells T)) (n : nat)
      (p : settled (list T)) :
  isMounted (cells i) = true -> isPending n i = true ->
  isMounted (cells (step i (Settle n p))) = true
  /\ (forall m, isPending m (step i (Settle n p))
                = isPending m i && negb (n =? m))
  /\ (forall d, p = Resolved d -> items (cells (step i (Settle n p))) = d).
Proof.
  intros Hm Hp. rewrite (list_settle_mounted i n p Hm Hp).
  split; [reflexivity|]. split.
  - intros m. apply (isPending_settleCall n m i).
  - intros d ->. reflexivity.
Qed.

Lemma list_twoInFlight (i : instance (Cells T)) :
  ready = true ->
  twoInFlight i
  = {| cells := {| items := items (cells i); loading := true; error := None;
                   isMounted := isMounted (cells i) |};
       issued := (issued i ++ [CallGetAll entityName opts])
                 ++ [CallGetAll entityName opts];
       pending := (pending i ++ [length (issued i)])
                  ++ [length (issued i ++ [CallGetAll entityName opts])];
       rejections := rejections i |}.
Proof.
  intros Hr. unfold UseEntityList.twoInFlight.
  cbn [UseEntityList.run fold_left UseEntityList.step].
  rewrite !list_fetchData_ready by exact Hr. reflexivity.
Qed.

Lemma list_twoInFlight_pending (i : instance (Cells T)) :
  ready = true ->
  isPending (length (issued i)) (twoInFlight i) = true
  /\ isPending (S (length (issued i))) (twoInFlight i) = true.
Proof.
  intros Hr. rewrite (list_twoInFlight i Hr). unfold isPending.
  cbn [pending]. rewrite length_app, Nat.add_1_r, !existsb_app.
  cbn [existsb]. rewrite !Nat.eqb_refl, !orb_true_r.
  split; [rewrite orb_true_l|]; reflexivity.
Qed.

Lemma list_last_resolved (i : instance (Cells T)) (d1 d2 : list T) :
  ready = true -> isMounted (cells i) = true ->
  let n1 := length (issued i) in
  let n2 := S n1 in
  items (cells (run [Settle n1 (Resolved d1); Settle n2 (Resolved d2)]
                  (twoInFlight i))) = d2
  /\ items (cells (run [Settle n2 (Resolved d2); Settle n1 (Resolved d1)]
                     (twoInFlight i))) = d1.
Proof.
  intros Hr Hm n1 n2.
  destruct (list_twoInFlight_pending i Hr) as [P1 P2].
  fold n1 in P1. fold n1 n2 in P2.
  assert (Hm2 : isMounted (cells (twoInFlight i)) = true)
    by (rewrite (list_twoInFlight i Hr); exact Hm).
  cbn [UseEntityList.run fold_left].
  split.
  - destruct (list_settle_facts (twoInFlight i) n1 (Resolved d1) Hm2 P1)
      as (Hm3 & Hp3 & _).
    assert (P : isPending n2
                  (step (twoInFlight i) (Settle n1 (Resolved d1))) = true).
    { rewrite Hp3, P2. unfold n2.
      destruct (Nat.eqb_spec n1 (S n1)); [lia|reflexivity]. }
    destruct (list_settle_facts _ n2 (Resolved d2) Hm3 P) as (_ & _ & Hd).
    apply Hd. reflexivity.
  - destruct (list_settle_facts (twoInFlight i) n2 (Resolved d2) Hm2 P2)
      as (Hm3 & Hp3 & _).
    assert (P : isPending n1
                  (step (twoInFlight i) (Settle n2 (Resolved d2))) = true).
    { rewrite Hp3, P1. unfold n2.
      destruct (Nat.eqb_spec (S n1) n1); [lia|reflexivity]. }
    destruct (list_settle_facts _ n1 (Resolved d1) Hm3 P) as (_ & _ & Hd).
    apply Hd. reflexivity.
Qed.

End ListHook.

Section EntityHook.

Import UseEntity.

Variable T : Type.
Variable ready : bool.
Variable entityName : str.
Variable id : option str.

Local Abbreviation step := (step (T := T) ready entityName id).
Local Abbreviation run := (run (T := T) ready entityName id).
Local Abbreviation twoInFlight := (twoInFlight (T := T) ready entityName id).

Lemma entity_after_resolved (c : Cells T) (d : T) :
  isMounted c = true ->
  fetchData_after (Resolved d) c
  = ({| item := Some d; loading := false; error := error c;
        isMounted := true |}, inl tt).
Proof. destruct c; simpl; intros ->; reflexivity. Qed.

Lemma entity_after_rejected (c : Cells T) (err : thrown) :
  isMounted c = true ->
  fetchData_after (Rejected err) c
  = ({| item := None; loading := false; error := Some (toError err);
        isMounted := true |}, inl tt).
Proof. destruct c; simpl; intros ->; reflexivity. Qed.

Lemma entity_after_unmounted (c : Cells T) (p : settled T) :
  isMounted c = false -> fetchData_after p c = (c, inl tt).
Proof. destruct c, p; simpl; intros ->; reflexivity. Qed.

Lemma entity_settle_unmounted (i : instance (Cells T)) (ev : event T) :
  isMounted (cells i) = false -> isSettle ev = true ->
  cells (step i ev) = cells i /\ rejections (step i ev) = rejections i.
Proof.
  intros Hm Hs. destruct ev as [| | |n p]; try discriminate.
  simpl. destruct (isPending n i); [|split; reflexivity].
  unfold runBlock. simpl.
  rewrite (entity_after_unmounted _ p Hm). split; reflexivity.
Qed.

Lemma entity_settles_unmounted (evs : list (event T)) :
  forall i : instance (Cells T),
    isMounted (cells i) = false -> forallb (@isSettle T) evs = true ->
    cells (run evs i) = cells i /\ rejections (run evs i) = rejections i.
Proof.
  induction evs as [|ev evs IH]; intros i Hm Hs; [split; reflexivity|].
  simpl in Hs. apply andb_true_iff in Hs. destruct Hs as [Hev Hevs].
  destruct (entity_settle_unmounted i ev Hm Hev) as [Hc Hr].
  change (run (ev :: evs) i) with (run evs (step i ev)).
  destruct (IH (step i ev)) as [Hc' Hr']; [rewrite Hc; exact Hm|exact Hevs|].
  rewrite Hc', Hr', Hc, Hr. split; reflexivity.
Qed.

Lemma entity_settle_mounted (i : instance (Cells T)) (n : nat)
      (p : settled T) :
  isMounted (cells i) = true -> isPending n i = true ->
  step i (Settle n p)
  = {| cells := {| item := match p with
                           | Resolved d => Some d
                           | Rejected _ => None
                           end;
                   loading := false;
                   error := match p with
                            | Resolved _ => error (cells i)
                            | Rejected err => Some (toError err)
                            end;
                   isMounted := true |};
       issued := issued i;
       pending := pending (settleCall n i);
       rejections := rejections i |}.
Proof.
  intros Hm Hp. simpl. rewrite Hp. unfold runBlock.
  change (cells (settleCall n i)) with (cells i).
  destruct p as [d|err].
  - rewrite (entity_after_resolved _ d Hm). reflexivity.
  - rewrite (entity_after_rejected _ err Hm). reflexivity.
Qed.

Lemma entity_settle_facts (i : instance (Cells T)) (n : nat)
      (p : settled T) :
  isMounted (cells i) = true -> isPending n i = true ->
  isMounted (cells (step i (Settle n p))) = true
  /\ (forall m, isPending m (step i (Settle n p))
                = isPending m i && negb (n =? m))
  /\ (forall d, p = Resolved d ->
                item (cells (step i (Settle n p))) = Some d).
Proof.
  intros Hm Hp. rewrite (entity_settle_mounted i n p Hm Hp).
  split; [reflexivity|]. split.
  - intros m. apply (isPending_settleCall n m i).
  - intros d ->. reflexivity.
Qed.

Lemma entity_fetchData_ready (i : instance (Cells T)) :
  ready = true -> truthyId id = true ->
  fetchData ready entityName id i
  = {| cells := {| item := item (cells i); loading := true; error := None;
                   isMounted := isMounted (cells i) |};
       issued := issued i ++ [CallGetOne entityName (idString id)];
       pending := pending i ++ [length (issued i)];
       rejections := rejections i |}.
Proof. intros -> Hid. unfold fetchData. rewrite Hid. reflexivity. Qed.

Lemma entity_twoInFlight (i : instance (Cells T)) :
  ready = true -> truthyId id = true ->
  twoInFlight i
  = {| cells := {| item := item (cells i); loading := true; error := None;
                   isMounted := isMounted (cells i) |};
       issued := (issued i ++ [CallGetOne entityName (idString id)])
                 ++ [CallGetOne entityName (idString id)];
       pending := (pending i ++ [length (issued i)])
                  ++ [length (issued i
                              ++ [CallGetOne entityName (idString id)])];
       rejections := rejections i |}.
Proof.
  intros Hr Hid. unfold UseEntity.twoInFlight.
  cbn [UseEntity.run fold_left UseEntity.step].
  rewrite !entity_fetchData_ready by assumption. reflexivity.
Qed.

Lemma entity_twoInFlight_pending (i : instance (Cells T)) :
  ready = true -> truthyId id = true ->
  isPending (length (issued i)) (twoInFlight i) = true
  /\ isPending (S (length (issued i))) (twoInFlight i) = true.
Proof.
  intros Hr Hid. rewrite (entity_twoInFlight i Hr Hid). unfold isPending.
  cbn [pending]. rewrite length_app, Nat.add_1_r, !existsb_app.
  cbn [existsb]. rewrite !Nat.eqb_refl, !orb_true_r.
  split; [rewrite orb_true_l|]; reflexivity.
Qed.

Lemma entity_last_resolved (i : instance (Cells T)) (d1 d2 : T) :
  ready = true -> truthyId id = true -> isMounted (cells i) = true ->
  let n1 := length (issued i) in
  let n2 := S n1 in
  item (cells (run [Settle n1 (Resolved d1); Settle n2 (Resolved d2)]
                 (twoInFlight i))) = Some d2
  /\ item (cells (run [Settle n2 (Resolved d2); Settle n1 (Resolved d1)]
                    (twoInFlight i))) = Some d1.
Proof.
  intros Hr Hid Hm n1 n2.
  destruct (entity_twoInFlight_pending i Hr Hid) as [P1 P2].
  fold n1 in P1. fold n1 n2 in P2.
  assert (Hm2 : isMounted (cells (twoInFlight i)) = true)
    by (rewrite (entity_twoInFlight i Hr Hid); exact Hm).
  cbn [UseEntity.run fold_left].
  split.
  - destruct (entity_settle_facts (twoInFlight i) n1 (Resolved d1) Hm2 P1)
      as (Hm3 & Hp3 & _).
    assert (P : isPending n2
                  (step (twoInFlight i) (Settle n1 (Resolved d1))) = true).
    { rewrite Hp3, P2. unfold n2.
      destruct (Nat.eqb_spec n1 (S n1)); [lia|reflexivity]. }
    destruct (entity_settle_facts _ n2 (Resolved d2) Hm3 P) as (_ & _ & Hd).
    apply Hd. reflexivity.
  - destruct (entity_settle_facts (twoInFlight i) n2 (Resolved d2) Hm2 P2)
      as (Hm3 & Hp3 & _).
    assert (P : isPending n1
                  (step (twoInFlight i) (Settle n2 (Resolved d2))) = true).
    { rewrite Hp3, P1. unfold n2.
      destruct (Nat.eqb_spec (S n1) n1); [lia|reflexivity]. }
    destruct (entity_settle_facts _ n1 (Resolved d1) Hm3 P) as (_ & _ & Hd).
    apply Hd. reflexivity.
Qed.

Lemma entity_noId_step (i : instance (Cells T)) (ev : event T) :
  truthyId id = false -> settledEmpty i -> settledEmpty (step i ev).
Proof.
  intros Hid (Hi & Hp & Hitem & Hl & He).
  destruct i as [c iss pe rj]. destruct c as [it lo er mo].
  simpl in Hi, Hp, Hitem, Hl, He. subst.
  destruct ev as [| | |n p]; unfold settledEmpty, UseEntity.step,
    UseEntity.fetchData; rewrite ?Hid; simpl; repeat split; reflexivity.
Qed.

Lemma entity_noId_run (evs : list (event T)) :
  truthyId id = false ->
  forall i, settledEmpty i -> settledEmpty (run evs i).
Proof.
  intros Hid. induction evs as [|ev evs IH]; intros i Hi; [exact Hi|].
  change (run (ev :: evs) i) with (run evs (step i ev)).
  apply IH. apply entity_noId_step; assumption.
Qed.

End EntityHook.

(** C1, as stated, fails: the hooks keep no issue counter.  With the
    first fetch and a refetch in flight, the refetch resolving first and
    the first fetch last leaves the data of the first fetch. *)
Lemma refetch_race_earlier_wins :
  let il := UseEntityList.run true (lit "tasks") None
              [UseEntityList.RunEffect nat; UseEntityList.Refetch nat;
               UseEntityList.Settle 1 (Resolved [2]);
               UseEntityList.Settle 0 (Resolved [1])]
              (UseEntityList.initial nat) in
  let ie := UseEntity.run true (lit "tasks") (Some (lit "7"))
              [UseEntity.RunEffect nat; UseEntity.Refetch nat;
               UseEntity.Settle 1 (Resolved 2);
               UseEntity.Settle 0 (Resolved 1)]
              (UseEntity.initial nat (Some (lit "7"))) in
  (pending il = [] /\ UseEntityList.items (cells il) = [1]
   /\ UseEntityList.items (cells il) <> [2])
  /\ (pending ie = [] /\ UseEntity.item (cells ie) = Some 1
      /\ UseEntity.item (cells ie) <> Some 2).
Proof.
  cbv zeta. repeat split; try reflexivity; vm_compute; discriminate.
Qed.

(** Resolving in issue order does not make the state that of the later
    call alone either: the error of an earlier failure stays next to
    the later data. *)
Lemma refetch_in_order_keeps_earlier_error :
  let il := UseEntityList.run true (lit "tasks") None
              [UseEntityList.RunEffect nat; UseEntityList.Refetch nat;
               UseEntityList.Settle 0
                 (Rejected (ThrownValue (Api.VStr (lit "offline"))));
               UseEntityList.Settle 1 (Resolved [2])]
              (UseEntityList.initial nat) in
  UseEntityList.items (cells il) = [2]
  /\ UseEntityList.error (cells il) = Some {| message := lit "offline" |}
  /\ UseEntityList.loading (cells il) = false.
Proof. repeat split; reflexivity. Qed.

(** C1 (amended): with two requests in flight on a mounted list or
    single-entity hook, both resolving, the state holds the data of the
    request that resolved last: the later-issued one when they resolve
    in issue order, the earlier-issued one otherwise. *)
Theorem last_resolved_wins (T : Type) (entityName : str)
        (opts : option Api.options) (id : option str)
        (il : instance (UseEntityList.Cells T))
        (ie : instance (UseEntity.Cells T))
        (l1 l2 : list T) (d1 d2 : T) :
  UseEntityList.isMounted (cells il) = true ->
  UseEntity.isMounted (cells ie) = true ->
  truthyId id = true ->
  (let n1 := length (issued il) in
   let n2 := S n1 in
   let flying := UseEntityList.twoInFlight true entityName opts il in
   UseEntityList.items
     (cells (UseEntityList.run true entityName opts
               [UseEntityList.Settle n1 (Resolved l1);
                UseEntityList.Settle n2 (Resolved l2)] flying)) = l2
   /\ UseEntityList.items
        (cells (UseEntityList.run true entityName opts
                  [UseEntityList.Settle n2 (Resolved l2);
                   UseEntityList.Settle n1 (Resolved l1)] flying)) = l1)
  /\ (let n1 := length (issued ie) in
      let n2 := S n1 in
      let flying := UseEntity.twoInFlight true entityName id ie in
      UseEntity.item
        (cells (UseEntity.run true entityName id
                  [UseEntity.Settle n1 (Resolved d1);
                   UseEntity.Settle n2 (Resolved d2)] flying)) = Some d2
      /\ UseEntity.item
           (cells (UseEntity.run true entityName id
                     [UseEntity.Settle n2 (Resolved d2);
                      UseEntity.Settle n1 (Resolved d1)] flying)) = Some d1).
Proof.
  intros Hl He Hid. split.
  - apply list_last_resolved; [reflexivity|exact Hl].
  - apply entity_last_resolved; [reflexivity|exact Hid|exact He].
Qed.

Lemma last_resolved_wins_witness :
  let il := UseEntityList.initial nat in
  let ie := UseEntity.initial nat (Some (lit "7")) in
  let fl := UseEntityList.twoInFlight true (lit "tasks") None il in
  let fe := UseEntity.twoInFlight true (lit "tasks") (Some (lit "7")) ie in
  (UseEntityList.items
     (cells (UseEntityList.run true (lit "tasks") None
               [UseEntityList.Settle 0 (Resolved [1]);
                UseEntityList.Settle 1 (Resolved [2])] fl)) = [2]
   /\ UseEntityList.items
        (cells (UseEntityList.run true (lit "tasks") None
                  [UseEntityList.Settle 1 (Resolved [2]);
                   UseEntityList.Settle 0 (Resolved [1])] fl)) = [1])
  /\ (UseEntity.item
        (cells (UseEntity.run true (lit "tasks") (Some (lit "7"))
                  [UseEntity.Settle 0 (Resolved 1);
                   UseEntity.Settle 1 (Resolved 2)] fe)) = Some 2
      /\ UseEntity.item
           (cells (UseEntity.run true (lit "tasks") (Some (lit "7"))
                     [UseEntity.Settle 1 (Resolved 2);
                      UseEntity.Settle 0 (Resolved 1)] fe)) = Some 1).
Proof.
  apply (last_resolved_wins (lit "tasks") None (Some (lit "7"))
           (UseEntityList.initial nat)
           (UseEntity.initial nat (Some (lit "7"))) [1] [2] 1 2);
    reflexivity.
Defined.

(** C9: a failed request of the list hook leaves the items as they are;
    it stores the error and clears [loading]. *)
Theorem list_failure_keeps_items (T : Type) (ready : bool) (entityName : str)
        (opts : option Api.options) (i : instance (UseEntityList.Cells T))
        (n : nat) (err : thrown) :
  UseEntityList.isMounted (cells i) = true ->
  isPending n i = true ->
  let i' := UseEntityList.step ready entityName opts i
              (UseEntityList.Settle n (Rejected err)) in
  UseEntityList.items (cells i') = UseEntityList.items (cells i)
  /\ UseEntityList.error (cells i') = Some (toError err)
  /\ UseEntityList.loading (cells i') = false.
Proof.
  intros Hm Hp i'. unfold i'.
  rewrite (list_settle_mounted ready entityName opts i n (Rejected err) Hm Hp).
  repeat split; reflexivity.
Qed.

Lemma list_failure_keeps_items_witness :
  let i := UseEntityList.run true (lit "tasks") None
             [UseEntityList.RunEffect nat;
              UseEntityList.Settle 0 (Resolved [5]);
              UseEntityList.Refetch nat]
             (UseEntityList.initial nat) in
  let i' := UseEntityList.step true (lit "tasks") None i
              (UseEntityList.Settle 1
                 (Rejected (ThrownValue (Api.VStr (lit "offline"))))) in
  UseEntityList.items (cells i') = [5]
  /\ UseEntityList.error (cells i') = Some {| message := lit "offline" |}
  /\ UseEntityList.loading (cells i') = false.
Proof.
  apply (list_failure_keeps_items true (lit "tasks") None
           (UseEntityList.run true (lit "tasks") None
              [UseEntityList.RunEffect nat;
               UseEntityList.Settle 0 (Resolved [5]);
               UseEntityList.Refetch nat]
              (UseEntityList.initial nat))
           1 (ThrownValue (Api.VStr (lit "offline"))));
    reflexivity.
Defined.

(** C10: a failed request of the single-entity hook stores the error and
    sets the item to null: a record loaded before is discarded. *)
Theorem entity_failure_clears_item (T : Type) (ready : bool)
        (entityName : str) (id : option str)
        (i : instance (UseEntity.Cells T)) (n : nat) (err : thrown) :
  UseEntity.isMounted (cells i) = true ->
  isPending n i = true ->
  let i' := UseEntity.step ready entityName id i
              (UseEntity.Settle n (Rejected err)) in
  UseEntity.item (cells i') = None
  /\ UseEntity.error (cells i') = Some (toError err)
  /\ UseEntity.loading (cells i') = false.
Proof.
  intros Hm Hp i'. unfold i'.
  rewrite (entity_settle_mounted ready entityName id i n (Rejected err) Hm Hp).
  repeat split; reflexivity.
Qed.

Lemma entity_failure_clears_item_witness :
  let i := UseEntity.run true (lit "tasks") (Some (lit "7"))
             [UseEntity.RunEffect nat;
              UseEntity.Settle 0 (Resolved 5);
              UseEntity.Refetch nat]
             (UseEntity.initial nat (Some (lit "7"))) in
  let i' := UseEntity.step true (lit "tasks") (Some (lit "7")) i
              (UseEntity.Settle 1
                 (Rejected (ThrownError {| message := lit "gone" |}))) in
  UseEntity.item (cells i) = Some 5
  /\ UseEntity.item (cells i') = None
  /\ UseEntity.error (cells i') = Some {| message := lit "gone" |}
  /\ UseEntity.loading (cells i') = false.
Proof.
  split; [reflexivity|].
  apply (entity_failure_clears_item true (lit "tasks") (Some (lit "7"))
           (UseEntity.run true (lit "tasks") (Some (lit "7"))
              [UseEntity.RunEffect nat;
               UseEntity.Settle 0 (Resolved 5);
               UseEntity.Refetch nat]
              (UseEntity.initial nat (Some (lit "7"))))
           1 (ThrownError {| message := lit "gone" |}));
    reflexivity.
Defined.

(* ===================================================================== *)
(** ** Properties of the mutation hook and of the form hook *)
(* ===================================================================== *)

Section MutationHook.

Import UseMutation.

Variable T : Type.

Lemma create_after_rejected (c : Cells T) (err : thrown) :
  create_after (Rejected err) c
  = ({| data := data c; loading := false; error := Some (toError err) |},
     inr (ThrownError (toError err))).
Proof. destruct c; reflexivity. Qed.

Lemma update_after_rejected (c : Cells T) (err : thrown) :
  update_after (Rejected err) c
  = ({| data := data c; loading := false; error := Some (toError err) |},
     inr (ThrownError (toError err))).
Proof. destruct c; reflexivity. Qed.

Lemma remove_after_rejected (c : Cells T) (err : thrown) :
  remove_after (Rejected err) c
  = ({| data := data c; loading := false; error := Some (toError err) |},
     inr (ThrownError (toError err))).
Proof. destruct c; reflexivity. Qed.

Lemma create_after_resolved (c : Cells T) (result : T) :
  create_after (Resolved result) c
  = ({| data := Some result; loading := false; error := error c |},
     inl result).
Proof. destruct c; reflexivity. Qed.

Lemma remove_after_resolved (c : Cells T) :
  remove_after (Resolved tt) c
  = ({| data := None; loading := false; error := error c |}, inl tt).
Proof. destruct c; reflexivity. Qed.

(** Whichever function issued the call, its failure ends the same way. *)
Lemma resume_rejected (call : apiCall) (err : thrown)
      (i : instance (Cells T)) :
  resume call (Rejected err) i
  = {| cells := {| data := data (cells i); loading := false;
                   error := Some (toError err) |};
       issued := issued i; pending := pending i;
       rejections := rejections i ++ [ThrownError (toError err)] |}.
Proof.
  destruct call; unfold resume, runBlock; simpl void;
    rewrite ?create_after_rejected, ?update_after_rejected,
      ?remove_after_rejected; reflexivity.
Qed.

Lemma toError_message (err : thrown) :
  message (toError err)
  = match err with
    | ThrownError e => message e
    | ThrownValue v => Api.String_ v
    end.
Proof. destruct err; reflexivity. Qed.

End MutationHook.

(** C6: when the client call of [create], [update] or [remove] fails,
    the thrown value becomes an error with its message, the error cell
    holds that error, [loading] is back to false, and the promise of
    the call is rejected with the same error. *)
Theorem mutation_failure_both_channels (T : Type) (ready : bool)
        (entityName : str) (o : UseMutation.op)
        (i : instance (UseMutation.Cells T)) (n : nat) (err : thrown) :
  isPending n i = true ->
  nth_error (issued i) n = Some (UseMutation.callOf entityName o) ->
  let i' := UseMutation.step ready entityName i
              (UseMutation.Settle n (Rejected err)) in
  UseMutation.error (cells i') = Some (toError err)
  /\ UseMutation.loading (cells i') = false
  /\ UseMutation.data (cells i') = UseMutation.data (cells i)
  /\ rejections i' = rejections i ++ [ThrownError (toError err)]
  /\ message (toError err)
     = match err with
       | ThrownError e => message e
       | ThrownValue v => Api.String_ v
       end.
Proof.
  intros Hp Hcall i'. unfold i'. simpl. rewrite Hp, Hcall.
  rewrite resume_rejected. simpl.
  repeat split; try reflexivity. apply toError_message.
Qed.

Lemma mutation_failure_both_channels_witness :
  let i := UseMutation.run true (lit "tasks")
             [UseMutation.Mutate nat (UseMutation.Update (lit "7") [])]
             (UseMutation.initial nat) in
  let boom := {| message := lit "boom" |} in
  let i' := UseMutation.step true (lit "tasks") i
              (UseMutation.Settle 0
                 (Rejected (ThrownValue (Api.VStr (lit "boom"))))) in
  UseMutation.loading (cells i) = true
  /\ UseMutation.error (cells i') = Some boom
  /\ UseMutation.loading (cells i') = false
  /\ UseMutation.data (cells i') = None
  /\ rejections i' = [ThrownError boom]
  /\ message boom = lit "boom".
Proof.
  split; [reflexivity|].
  apply (mutation_failure_both_channels true (lit "tasks")
           (UseMutation.Update (lit "7") [])
           (UseMutation.run true (lit "tasks")
              [UseMutation.Mutate nat (UseMutation.Update (lit "7") [])]
              (UseMutation.initial nat))
           0 (ThrownValue (Api.VStr (lit "boom"))));
    reflexivity.
Defined.

(** The same holds when [getApi] itself throws, the client not being
    initialised: the failure is caught in the same [try]. *)
Lemma mutation_failure_not_initialised (T : Type) (entityName : str)
      (o : UseMutation.op) (i : instance (UseMutation.Cells T)) :
  let i' := UseMutation.step false entityName i (UseMutation.Mutate T o) in
  UseMutation.error (cells i') = Some notInitialized
  /\ UseMutation.loading (cells i') = false
  /\ issued i' = issued i
  /\ rejections i' = rejections i ++ [ThrownError notInitialized].
Proof.
  cbv zeta. simpl. unfold UseMutation.mutate.
  rewrite resume_rejected. repeat split; reflexivity.
Qed.

(** C2, as stated, fails on the mutation hook, which has no mounted
    flag: a [create] that is rejected after the unmount throws its
    error to the caller, the promise of the call being rejected. *)
Lemma mutation_settles_after_unmount :
  let torn := UseMutation.run true (lit "tasks")
                [UseMutation.Mutate nat (UseMutation.Create []);
                 UseMutation.Unmount nat]
                (UseMutation.initial nat) in
  let late := UseMutation.step true (lit "tasks") torn
                (UseMutation.Settle 0
                   (Rejected (ThrownValue (Api.VStr (lit "boom"))))) in
  isPending 0 torn = true
  /\ rejections torn = []
  /\ rejections late = [ThrownError {| message := lit "boom" |}]
  /\ rejections late <> rejections torn.
Proof.
  cbv zeta. repeat split; try reflexivity. vm_compute. discriminate.
Qed.

(** C8: [remove] of the form hook without an id throws the invalid
    operation error and leaves both hooks as they are, so no call is
    issued; with an id it is [remove] of the mutation hook, which sends
    a [DELETE] for that id when the client is initialised. *)
Theorem form_remove_guard (T : Type) (ready : bool) (entityName : str)
        (id : option str) (f : UseEntityForm.Form T) :
  (truthyId id = false ->
   UseEntityForm.remove ready entityName id f
   = (f, Some (ThrownError invalidOperation)))
  /\ (forall s : str,
         id = Some s -> truthy s = true ->
         UseEntityForm.remove ready entityName id f
         = ({| UseEntityForm.entity := UseEntityForm.entity f;
               UseEntityForm.mutation :=
                 UseMutation.step ready entityName
                   (UseEntityForm.mutation f)
                   (UseMutation.Mutate T (UseMutation.Remove s)) |}, None)
         /\ (ready = true ->
             issued (UseEntityForm.mutation
                       (fst (UseEntityForm.remove ready entityName id f)))
             = issued (UseEntityForm.mutation f)
               ++ [CallRemove entityName s])
         /\ requestOf (CallRemove entityName s)
            = {| Api.endpoint :=
                   lit "/api/" ++ Api.pluralize entityName ++ lit "/" ++ s;
                 Api.method := Some (lit "DELETE");
                 Api.body := None |}).
Proof.
  split.
  - intros Hid. unfold UseEntityForm.remove, UseEntityForm.isEdit.
    rewrite Hid. reflexivity.
  - intros s -> Hs. unfold UseEntityForm.remove, UseEntityForm.isEdit.
    simpl truthyId. rewrite Hs. simpl.
    split; [reflexivity|]. split; [|reflexivity].
    intros ->. reflexivity.
Qed.

Lemma form_remove_guard_witness :
  let create := UseEntityForm.initial nat None in
  let edit := UseEntityForm.initial nat (Some (lit "7")) in
  UseEntityForm.remove true (lit "tasks") None create
  = (create, Some (ThrownError invalidOperation))
  /\ issued (UseEntityForm.mutation
               (fst (UseEntityForm.remove true (lit "tasks")
                       (Some (lit "7")) edit)))
     = [CallRemove (lit "tasks") (lit "7")].
Proof.
  split.
  - apply (proj1 (form_remove_guard true (lit "tasks") None
                    (UseEntityForm.initial nat None))).
    reflexivity.
  - apply (proj1 (proj2 (proj2 (form_remove_guard true (lit "tasks")
                                  (Some (lit "7"))
                                  (UseEntityForm.initial nat
                                     (Some (lit "7"))))
                           (lit "7") eq_refl eq_refl))).
    reflexivity.
Defined.

(* ===================================================================== *)
(** ** Further properties of the naming engine *)
(* ===================================================================== *)

Section NamingMore.

Lemma ruleR_Unchanged_inv (r : str) :
  ruleR r = Unchanged ->
  r = [] \/ startsWith (toLowerCase r) (lit "s") = true.
Proof.
  unfold ruleR. destruct r as [|c r]; [left; reflexivity|].
  cbn [truthy negb].
  destruct (startsWith (toLowerCase (c :: r)) (lit "s")); [right; reflexivity|].
  repeat match goal with
         | |- (if ?b then _ else _) = _ -> _ => destruct b
         end; discriminate.
Qed.

Lemma toPluralR_nonempty (r : str) : r <> [] -> toPluralR r <> [].
Proof.
  intros Hr. unfold toPluralR.
  destruct (ruleR r); [exact Hr|..]; discriminate.
Qed.

(** X1: pluralising a plural changes nothing. *)
Theorem toPlural_twice (w : str) : toPlural (toPlural w) = toPlural w.
Proof. apply toPlural_idempotent. Qed.

(** X2: the plural of a word that is not empty ends in [s], whatever
    the case of that last letter. *)
Theorem toPlural_ends_in_s (w : str) :
  w <> [] -> endsWith (toLowerCase (toPlural w)) (lit "s") = true.
Proof.
  intros Hw. rewrite <- (rev_involutive w).
  rewrite toPlural_rev, toLowerCase_rev, endsWith_rev.
  change (rev (lit "s")) with (lit "s").
  destruct (ruleR_Unchanged_inv (toPluralR (rev w)) (ruleR_toPluralR (rev w)))
    as [Hnil|Hs]; [|exact Hs].
  exfalso. revert Hnil. apply toPluralR_nonempty.
  intros E. apply Hw. rewrite <- (rev_involutive w), E. reflexivity.
Qed.

Lemma toPlural_ends_in_s_witness :
  lit "category" <> []
  /\ endsWith (toLowerCase (toPlural (lit "category"))) (lit "s") = true.
Proof.
  split; [discriminate|].
  apply (toPlural_ends_in_s (w := lit "category")). discriminate.
Defined.

Lemma ruleR_nil_inv (r : str) : ruleR r <> Unchanged -> r <> [].
Proof. intros H E. subst r. apply H. reflexivity. Qed.

Lemma ruleR_YToIes_length (r : str) : ruleR r = YToIes -> 1 < length r.
Proof.
  unfold ruleR.
  destruct (negb (truthy r)); [discriminate|].
  destruct (startsWith (toLowerCase r) (lit "s")); [discriminate|].
  destruct (Nat.ltb_spec 1 (length r)) as [Hlt|Hge]; [intros _; exact Hlt|].
  cbn [andb].
  match goal with
  | |- (if ?b then _ else _) = _ -> _ => destruct b
  end; discriminate.
Qed.

(** X3: [toPlural] never shortens a word and adds at most two units. *)
Theorem toPlural_length (w : str) :
  length w <= length (toPlural w) <= length w + 2.
Proof.
  rewrite <- (rev_involutive w).
  generalize (rev w) as r. clear w. intros r.
  rewrite toPlural_rev, !length_rev.
  unfold toPluralR. destruct (ruleR r) eqn:R.
  - lia.
  - apply ruleR_YToIes_length in R.
    rewrite length_app, length_skipn. cbn [lit length list_ascii_of_string].
    lia.
  - cbn [lit list_ascii_of_string app length]. lia.
  - cbn [lit list_ascii_of_string app length]. lia.
Qed.

(** X4: [toSingular] never lengthens a word and removes at most two
    units. *)
Theorem toSingular_length (s : str) :
  length s - 2 <= length (toSingular s) <= length s.
Proof.
  rewrite <- (rev_involutive s).
  generalize (rev s) as r. clear s. intros r.
  rewrite toSingular_rev, !length_rev.
  unfold toSingularR.
  destruct (startsWith r (lit "sei") && (3 <? length r)) eqn:E1.
  - apply andb_true_iff in E1. destruct E1 as [_ E1].
    apply Nat.ltb_lt in E1.
    rewrite length_app, length_skipn. cbn [lit length list_ascii_of_string].
    lia.
  - destruct (startsWith r (lit "se") && (2 <? length r)).
    + match goal with
      | |- context [if ?b then _ else _] => destruct b
      end; rewrite length_skipn; lia.
    + destruct (startsWith r (lit "s") && (1 <? length r));
        [rewrite length_skipn|]; lia.
Qed.

(** X5: a word that does not end in a lower-case [s] is its own
    singular. *)
Theorem toSingular_without_s (s : str) :
  endsWith s (lit "s") = false -> toSingular s = s.
Proof.
  rewrite <- (rev_involutive s).
  generalize (rev s) as r. clear s. intros r.
  rewrite toSingular_rev, endsWith_rev.
  change (rev (lit "s")) with (lit "s").
  intros H. f_equal.
  unfold toSingularR. destruct r as [|c r]; [reflexivity|].
  cbn in H |- *. rewrite andb_true_r in H. rewrite H. reflexivity.
Qed.

Lemma toSingular_without_s_witness :
  endsWith (lit "child") (lit "s") = false
  /\ toSingular (lit "child") = lit "child".
Proof.
  split; [reflexivity|].
  apply (toSingular_without_s (lit "child")). reflexivity.
Defined.

End NamingMore.

(* ===================================================================== *)
(** ** Properties of the case conversion *)
(* ===================================================================== *)

Section CasingFacts.

Import Casing.

Ltac by_units c :=
  destruct c as [[] [] [] [] [] [] [] []]; vm_compute;
  try reflexivity; try discriminate; intros; try discriminate;
  try reflexivity.

(** Folding the case gives no upper-case letter and keeps the
    separators apart. *)
Lemma lower_char_snakeUnit (c : ascii) :
  isSeparator c = false -> snakeUnit (lower_char c) = true.
Proof. by_units c. Qed.

Lemma underscore_not_separator : isSeparator "_"%char = false.
Proof. reflexivity. Qed.

Lemma snakeUnit_not_upperAZ (c : ascii) :
  snakeUnit c = true -> isUpperAZ c = false.
Proof. by_units c. Qed.

Lemma snakeUnit_not_separator (c : ascii) :
  snakeUnit c = true -> isSeparator c = false.
Proof.
  unfold snakeUnit. rewrite andb_true_iff, !negb_true_iff. tauto.
Qed.

Lemma snakeUnit_lower (c : ascii) : snakeUnit c = true -> lower_char c = c.
Proof.
  unfold snakeUnit, lower_char.
  rewrite andb_true_iff, !negb_true_iff. intros [-> _]. reflexivity.
Qed.

Lemma joinSeparators_no_separator (s : str) :
  forall inRun,
    forallb (fun c => negb (isSeparator c)) (joinSeparators inRun s) = true.
Proof.
  induction s as [|c s IH]; intros inRun; simpl; [reflexivity|].
  destruct (isSeparator c) eqn:E.
  - destruct inRun; [apply IH|].
    simpl. rewrite IH. reflexivity.
  - simpl. rewrite E, IH. reflexivity.
Qed.

Lemma toLowerCase_snake (s : str) :
  forallb (fun c => negb (isSeparator c)) s = true ->
  forallb snakeUnit (toLowerCase s) = true.
Proof.
  induction s as [|c s IH]; simpl; [reflexivity|].
  rewrite andb_true_iff, negb_true_iff. intros [Hc Hs].
  rewrite (lower_char_snakeUnit c Hc), (IH Hs). reflexivity.
Qed.

Lemma splitHumps_snake (s : str) :
  forallb snakeUnit s = true -> splitHumps s = s.
Proof.
  induction s as [|a s IH]; [reflexivity|].
  intros H. simpl in H. apply andb_true_iff in H. destruct H as [Ha Hs].
  destruct s as [|b rest]; [reflexivity|].
  assert (Hb : isUpperAZ b = false).
  { apply snakeUnit_not_upperAZ. simpl in Hs.
    apply andb_true_iff in Hs. tauto. }
  change (splitHumps (a :: b :: rest))
    with (if isLowerAZ a && isUpperAZ b
          then a :: "_"%char :: b :: splitHumps rest
          else a :: splitHumps (b :: rest)).
  rewrite Hb, andb_false_r, (IH Hs). reflexivity.
Qed.

Lemma joinSeparators_snake (s : str) :
  forallb snakeUnit s = true -> joinSeparators false s = s.
Proof.
  induction s as [|c s IH]; simpl; [reflexivity|].
  rewrite andb_true_iff. intros [Hc Hs].
  rewrite (snakeUnit_not_separator c Hc), (IH Hs). reflexivity.
Qed.

Lemma toLowerCase_snake_id (s : str) :
  forallb snakeUnit s = true -> toLowerCase s = s.
Proof.
  induction s as [|c s IH]; simpl; [reflexivity|].
  rewrite andb_true_iff. intros [Hc Hs].
  rewrite (snakeUnit_lower c Hc). f_equal. apply IH. exact Hs.
Qed.

Lemma toSnakeCase_snake (s : str) :
  forallb snakeUnit s = true -> toSnakeCase s = s.
Proof.
  intros H. unfold toSnakeCase.
  rewrite (splitHumps_snake s H), (joinSeparators_snake s H).
  apply toLowerCase_snake_id. exact H.
Qed.

Lemma toSnakeCase_result (s : str) :
  forallb snakeUnit (toSnakeCase s) = true.
Proof.
  unfold toSnakeCase. apply toLowerCase_snake.
  apply joinSeparators_no_separator.
Qed.

(** X6: the result of [toSnakeCase] holds no upper-case letter, no
    white space and no hyphen. *)
Theorem toSnakeCase_units (s : str) :
  forallb snakeUnit (toSnakeCase s) = true.
Proof. apply toSnakeCase_result. Qed.

(** X7: [toSnakeCase] is idempotent. *)
Theorem toSnakeCase_idempotent (s : str) :
  toSnakeCase (toSnakeCase s) = toSnakeCase s.
Proof. apply toSnakeCase_snake. apply toSnakeCase_result. Qed.

Lemma toSnakeCase_examples :
  toSnakeCase (lit "UserTasks") = lit "user_tasks"
  /\ toSnakeCase (lit "task") = lit "task"
  /\ toSnakeCase (lit "my  big-list") = lit "my_big_list"
  /\ toSnakeCase (lit "HTTPServer") = lit "httpserver".
Proof. repeat split; reflexivity. Qed.

End CasingFacts.

(* ===================================================================== *)
(** ** Properties of the schema utilities *)
(* ===================================================================== *)

Section SchemaFacts.

Import Schema.

Lemma getFieldDefault_not_undefined (field : FieldConfig) :
  getFieldDefault field <> JUndefined.
Proof.
  unfold getFieldDefault.
  destruct (default field) eqn:D; simpl; try discriminate.
  destruct (type field); discriminate.
Qed.

(** X8: [getFieldDefault] never returns [undefined]: a declared
    default is returned as it is, [null] included, and the default of
    the type is a value. *)
Theorem getFieldDefault_defined (field : FieldConfig) :
  getFieldDefault field <> JUndefined
  /\ (default field <> JUndefined -> getFieldDefault field = default field).
Proof.
  split; [apply getFieldDefault_not_undefined|].
  unfold getFieldDefault.
  intros H. destruct (default field); try reflexivity.
  elim H. reflexivity.
Qed.

Lemma getFieldDefault_defined_witness :
  let field := {| type := TBoolean; required := None; unique := None;
                  max_length := None; precision := None; scale := None;
                  enum := None; foreign_key := None; nullable := Some true;
                  default := JNull; description := None; index := None;
                  on_delete := None; _id := None |} in
  default field <> JUndefined /\ getFieldDefault field = JNull.
Proof.
  intros field. split; [discriminate|].
  exact (proj2 (getFieldDefault_defined field)
           (fun E : default field = JUndefined =>
              eq_ind JNull
                (fun v => match v with JNull => True | _ => False end)
                I JUndefined E)).
Defined.

(** X9: the tables inside [schemaTypeToTs] and [getFieldDefault] agree
    with the exported tables, and the fallbacks [unknown] and the empty
    string are never taken. *)
Theorem schema_tables_agree :
  (forall t : FieldType,
      schemaTypeToTs t = SCHEMA_TO_TS_TYPE t
      /\ schemaTypeToTs t <> lit "unknown")
  /\ (forall field : FieldConfig,
         default field = JUndefined ->
         getFieldDefault field = SCHEMA_TO_DEFAULT (type field)).
Proof.
  split.
  - intros t. destruct t; split; try reflexivity; vm_compute; discriminate.
  - intros field H. unfold getFieldDefault. rewrite H. simpl.
    destruct (type field); reflexivity.
Qed.

Lemma schema_tables_agree_witness :
  let field := {| type := TJson; required := None; unique := None;
                  max_length := None; precision := None; scale := None;
                  enum := None; foreign_key := None; nullable := None;
                  default := JUndefined; description := None; index := None;
                  on_delete := None; _id := None |} in
  getFieldDefault field = JObject [].
Proof.
  intros field. exact (proj2 schema_tables_agree field eq_refl).
Defined.

Lemma formField_spec (f : str) :
  formField f = true
  <-> startsWith f (lit "_") = false /\ f <> lit "user_id".
Proof.
  unfold formField. rewrite andb_true_iff, !negb_true_iff.
  split; intros [H1 H2]; split; try exact H1.
  - intros E. apply str_eqb_eq in E. rewrite E in H2. discriminate.
  - destruct (str_eqb f (lit "user_id")) eqn:E; [|reflexivity].
    apply str_eqb_eq in E. contradiction.
Qed.

(** X10: the display fields are at most six, each is a key of the
    entity that is neither a metadata key nor [user_id], and they are
    the first such keys in the order of the entity. *)
Theorem displayFields_spec (tableName : str) (entity : EntityConfig) :
  let shown := displayFields (createEntityMetadata tableName entity) in
  length shown <= 6
  /\ (forall f, In f shown ->
                In f (map fst entity)
                /\ startsWith f (lit "_") = false /\ f <> lit "user_id")
  /\ (exists rest, filter formField (map fst entity) = shown ++ rest).
Proof.
  cbv zeta.
  change (displayFields (createEntityMetadata tableName entity))
    with (firstn 6 (filter formField (map fst entity))).
  split; [apply firstn_le_length|]. split.
  - intros f Hf.
    assert (Hin : In f (filter formField (map fst entity))).
    { rewrite <- (firstn_skipn 6). apply in_or_app. left. exact Hf. }
    apply filter_In in Hin. destruct Hin as [Hin Hff].
    split; [exact Hin|]. apply formField_spec. exact Hff.
  - exists (skipn 6 (filter formField (map fst entity))).
    symmetry. apply firstn_skipn.
Qed.

(** Assigning a key that the object does not hold adds it last. *)
Lemma assign_fresh (data : list (str * jsValue)) (key : str) (v : jsValue) :
  ~ In key (map fst data) -> assign data key v = data ++ [(key, v)].
Proof.
  induction data as [|[k old] rest IH]; simpl; intros Hfresh; [reflexivity|].
  destruct (str_eqb k key) eqn:E.
  - apply str_eqb_eq in E. elim Hfresh. left. exact E.
  - rewrite IH; [reflexivity|]. intros H. apply Hfresh. right. exact H.
Qed.

Lemma formEntries_keys (entity : EntityConfig) :
  map fst (formEntries entity) = filter formField (map fst entity).
Proof.
  unfold formEntries. rewrite map_map. simpl.
  induction entity as [|[k c] entity IH]; simpl; [reflexivity|].
  destruct (formField k); simpl; rewrite IH; reflexivity.
Qed.

Lemma initialField_formField (data : list (str * jsValue))
      (k : str) (c : FieldConfig) :
  initialField data (k, c)
  = if formField k then assign data k (getFieldDefault c) else data.
Proof.
  unfold initialField, formField.
  destruct (startsWith k (lit "_")); [reflexivity|].
  destruct (str_eqb k (lit "user_id")); reflexivity.
Qed.

Lemma fold_initialField (entity : EntityConfig) :
  forall data : list (str * jsValue),
    NoDup (map fst data ++ map fst entity) ->
    fold_left initialField entity data = data ++ formEntries entity.
Proof.
  induction entity as [|[k c] entity IH]; intros data Hnd.
  - simpl. unfold formEntries. simpl. rewrite app_nil_r. reflexivity.
  - cbn [fold_left]. rewrite initialField_formField.
    cbn [map fst] in Hnd.
    assert (Hfresh : ~ In k (map fst data)).
    { apply NoDup_remove_2 in Hnd. intros H. apply Hnd.
      apply in_or_app. left. exact H. }
    unfold formEntries. cbn [filter fst].
    destruct (formField k) eqn:Ek.
    + rewrite (assign_fresh data k _ Hfresh).
      rewrite IH.
      * rewrite <- app_assoc. reflexivity.
      * rewrite map_app. cbn [map fst]. rewrite <- app_assoc. exact Hnd.
    + apply IH. apply NoDup_remove_1 in Hnd. exact Hnd.
Qed.

Lemma getInitialFormData_closed (entity : EntityConfig) :
  NoDup (map fst entity) ->
  getInitialFormData entity = formEntries entity.
Proof.
  intros Hnd. unfold getInitialFormData.
  rewrite fold_initialField; [reflexivity|exact Hnd].
Qed.

(** X11: for an entity whose keys are distinct, as those of an object
    are, the initial form data lists the fields that are neither
    metadata nor [user_id], in the order of the entity, each with the
    default of its field. *)
Theorem getInitialFormData_spec (entity : EntityConfig) :
  NoDup (map fst entity) ->
  getInitialFormData entity = formEntries entity.
Proof. apply getInitialFormData_closed. Qed.

Lemma sampleEntity_keys : NoDup (map fst sampleEntity).
Proof.
  simpl. repeat constructor; simpl; intuition discriminate.
Defined.

Lemma getInitialFormData_spec_witness :
  NoDup (map fst sampleEntity)
  /\ getInitialFormData sampleEntity
     = [(lit "title", JStr []); (lit "done", JBool true);
        (lit "owner", JStr [])].
Proof.
  split; [exact sampleEntity_keys|].
  exact (getInitialFormData_spec sampleEntity sampleEntity_keys).
Defined.

(** X12: every display field of the metadata has an initial value in
    the form data, in the same order, and no initial value is
    [undefined]. *)
Theorem displayFields_in_form (tableName : str) (entity : EntityConfig) :
  NoDup (map fst entity) ->
  displayFields (createEntityMetadata tableName entity)
  = firstn 6 (map fst (getInitialFormData entity))
  /\ Forall (fun kv => snd kv <> JUndefined) (getInitialFormData entity).
Proof.
  intros Hnd. rewrite (getInitialFormData_closed entity Hnd). split.
  - rewrite formEntries_keys. reflexivity.
  - unfold formEntries. apply Forall_forall. intros [k v] Hin.
    apply in_map_iff in Hin. destruct Hin as [[k' c] [E _]].
    simpl in E. injection E as _ <-. simpl.
    apply getFieldDefault_not_undefined.
Qed.

Lemma displayFields_in_form_witness :
  NoDup (map fst sampleEntity)
  /\ displayFields (createEntityMetadata (lit "tasks") sampleEntity)
     = firstn 6 (map fst (getInitialFormData sampleEntity)).
Proof.
  split; [exact sampleEntity_keys|].
  exact (proj1 (displayFields_in_form (lit "tasks") sampleEntity
                  sampleEntity_keys)).
Defined.

Lemma startsWith_prefix (s p : str) :
  startsWith s p = true <-> exists rest, s = p ++ rest.
Proof.
  revert s. induction p as [|x p IH]; intros s; simpl.
  - split; [intros _; exists s; reflexivity|reflexivity].
  - destruct s as [|y s].
    + split; [discriminate|intros [rest E]; discriminate].
    + rewrite andb_true_iff, char_eqb_eq, IH. split.
      * intros [-> [rest ->]]. exists rest. reflexivity.
      * intros [rest E]. injection E as -> ->. split; [reflexivity|].
        exists rest. reflexivity.
Qed.

(** X13: [getUserFkFields] returns the keys other than [_id] whose
    field has a foreign key into [app_users]: a key with another
    foreign key, or with none, is never returned. *)
Theorem getUserFkFields_spec (entity : EntityConfig) (key : str) :
  In key (getUserFkFields entity)
  <-> key <> lit "_id"
      /\ exists (config : FieldConfig) (column : str),
           In (key, config) entity
           /\ foreign_key config = Some (lit "app_users." ++ column).
Proof.
  unfold getUserFkFields. rewrite in_map_iff. split.
  - intros [[k c] [E Hin]]. simpl in E. subst k.
    apply filter_In in Hin. destruct Hin as [Hin Hf]. cbn [fst snd] in Hf.
    rewrite andb_true_r in Hf. apply andb_true_iff in Hf.
    destruct Hf as [Hid Hfk]. split.
    + intros E. rewrite E in Hid. discriminate.
    + unfold isUserForeignKey in Hfk.
      destruct (foreign_key c) as [fk|] eqn:Efk; [|discriminate].
      apply startsWith_prefix in Hfk. destruct Hfk as [column ->].
      exists c, column. split; assumption.
  - intros [Hid (c & column & Hin & Hfk)].
    exists (key, c). split; [reflexivity|].
    apply filter_In. split; [exact Hin|]. cbn [fst snd].
    rewrite andb_true_r. apply andb_true_iff. split.
    + destruct (str_eqb key (lit "_id")) eqn:E; [|reflexivity].
      apply str_eqb_eq in E. contradiction.
    + unfold isUserForeignKey. rewrite Hfk.
      apply startsWith_prefix. exists column. reflexivity.
Qed.

Lemma getUserFkFields_sample :
  getUserFkFields sampleEntity = [lit "user_id"; lit "owner"].
Proof. reflexivity. Qed.

End SchemaFacts.

(* ===================================================================== *)
(** ** Further properties of the entity client *)
(* ===================================================================== *)

Section ApiMore.

Import Api.

(** X14: every verb of the client addresses the same resource for an
    entity name and for its plural. *)
Theorem verbs_accept_plural (s id : str) (data : options) :
  getOne (toPlural s) id = getOne s id
  /\ create (toPlural s) data = create s data
  /\ update (toPlural s) id data = update s id data
  /\ remove (toPlural s) id = remove s id.
Proof.
  unfold getOne, create, update, remove.
  rewrite !pluralize_toPlural, toPlural_idempotent.
  repeat split; reflexivity.
Qed.

(** X15: the id is appended to the collection path as it is, so the
    empty id makes [getOne] read the collection and [remove] send its
    [DELETE] to the collection path. *)
Theorem item_path_is_collection_path_and_id (entityName id : str)
        (data : options) :
  endpoint (getOne entityName id)
  = endpoint (getAll entityName None) ++ id
  /\ endpoint (update entityName id data)
     = endpoint (create entityName data) ++ id
  /\ endpoint (remove entityName id)
     = endpoint (create entityName data) ++ id
  /\ remove entityName []
     = {| endpoint := endpoint (getAll entityName None);
          method := Some (lit "DELETE"); body := None |}.
Proof.
  unfold getOne, getAll, update, create, remove.
  cbn [endpoint getAllQuery].
  repeat split; rewrite ?app_nil_r, <- ?app_assoc; reflexivity.
Qed.

Lemma encodeByte_units (b : nat) :
  b < 256 -> forallb encodedUnit (encodeByte b) = true.
Proof.
  intros Hb.
  do 256 (destruct b as [|b]; [reflexivity|]). lia.
Qed.

Lemma utf8_bytes (c : ascii) : Forall (fun b => b < 256) (utf8 c).
Proof.
  unfold utf8. pose proof (nat_ascii_bounded c) as Hc.
  destruct (nat_of_ascii c <? 128) eqn:E.
  - constructor; [exact Hc|constructor].
  - assert (nat_of_ascii c / 64 < 4)
      by (apply Nat.Div0.div_lt_upper_bound; lia).
    assert (nat_of_ascii c mod 64 < 64)
      by (apply Nat.mod_upper_bound; lia).
    constructor; [lia|]. constructor; [lia|]. constructor.
Qed.

Lemma forallb_flat_map (A B : Type) (f : A -> list B) (p : B -> bool)
      (l : list A) :
  Forall (fun a => forallb p (f a) = true) l ->
  forallb p (flat_map f l) = true.
Proof.
  induction 1 as [|a l Ha _ IH]; simpl; [reflexivity|].
  rewrite forallb_app, Ha, IH. reflexivity.
Qed.

Lemma urlencode_units (s : str) : forallb encodedUnit (urlencode s) = true.
Proof.
  unfold urlencode. apply forallb_flat_map.
  apply Forall_forall. intros c _.
  apply forallb_flat_map.
  eapply Forall_impl; [|apply utf8_bytes].
  intros b Hb. apply encodeByte_units. exact Hb.
Qed.

Lemma countUnit_app (c : ascii) (a b : str) :
  countUnit c (a ++ b) = countUnit c a + countUnit c b.
Proof. unfold countUnit. rewrite filter_app, length_app. reflexivity. Qed.

Lemma countUnit_encoded (c : ascii) (s : str) :
  encodedUnit c = false -> forallb encodedUnit s = true ->
  countUnit c s = 0.
Proof.
  intros Hc. unfold countUnit.
  induction s as [|x s IH]; simpl; [reflexivity|].
  rewrite andb_true_iff. intros [Hx Hs].
  destruct (char_eqb c x) eqn:E; [|apply IH; exact Hs].
  apply char_eqb_eq in E. subst x. rewrite Hc in Hx. discriminate.
Qed.

Lemma countUnit_pairOf (e : str * value) :
  countUnit "="%char (pairOf e) = 1 /\ countUnit "&"%char (pairOf e) = 0.
Proof.
  assert (H : forall c s, encodedUnit c = false ->
                          countUnit c (urlencode s) = 0).
  { intros c s Hc. apply countUnit_encoded; [exact Hc|].
    apply urlencode_units. }
  unfold pairOf. rewrite !countUnit_app.
  rewrite !(H "="%char), !(H "&"%char) by reflexivity.
  split; reflexivity.
Qed.

Lemma countUnit_join_pairs (kept : options) :
  countUnit "="%char (join (lit "&") (map pairOf kept)) = length kept
  /\ countUnit "&"%char (join (lit "&") (map pairOf kept))
     = length kept - 1.
Proof.
  induction kept as [|e kept [IHe IHa]]; [split; reflexivity|].
  destruct (countUnit_pairOf e) as [He Ha].
  destruct kept as [|e' kept].
  - simpl. rewrite He, Ha. split; reflexivity.
  - change (join (lit "&") (map pairOf (e :: e' :: kept)))
      with (pairOf e ++ lit "&"
            ++ join (lit "&") (map pairOf (e' :: kept))).
    rewrite !countUnit_app, He, Ha, IHe, IHa.
    cbn [length]. split; [reflexivity|].
    change (countUnit "&"%char (lit "&")) with 1. lia.
Qed.

(** X16: no name and no value can add or split a parameter: the query
    of [getAll] holds one equals sign for each entry that is neither
    undefined nor null, and one ampersand between two of them. *)
Theorem getAll_query_shape (opts : option options) :
  countUnit "="%char (getAllQuery opts) = length (presentEntries opts)
  /\ countUnit "&"%char (getAllQuery opts)
     = length (presentEntries opts) - 1.
Proof.
  rewrite getAllQuery_spec. unfold specQuery.
  destruct (presentEntries opts) as [|e kept] eqn:E; [split; reflexivity|].
  destruct (countUnit_join_pairs (e :: kept)) as [He Ha].
  rewrite !countUnit_app, He, Ha. split; reflexivity.
Qed.

Lemma getAll_query_shape_example :
  getAllQuery (Some [(lit "q", VStr (lit "a&b=c")); (lit "n", VNull);
                     (lit "x y", VNum (ofZ 0))])
  = lit "?q=a%26b%3Dc&x+y=0".
Proof. vm_compute. reflexivity. Qed.

End ApiMore.

(* ===================================================================== *)
(** ** Further properties of the hooks *)
(* ===================================================================== *)

Section InstanceMore.

Variable C : Type.

Lemma runBlock_normal (A : Type) (m : M C A) (i : instance C) :
  (exists a, snd (m (cells i)) = inl a) ->
  rejections (runBlock m i) = rejections i
  /\ issued (runBlock m i) = issued i
  /\ pending (runBlock m i) = pending i
  /\ cells (runBlock m i) = fst (m (cells i)).
Proof.
  intros [a Ha]. unfold runBlock.
  destruct (m (cells i)) as [c [a'|e]]; simpl in *; [|discriminate].
  repeat split; reflexivity.
Qed.

End InstanceMore.

Section ListMore.

Import UseEntityList.

Variable T : Type.
Variable ready : bool.
Variable entityName : str.
Variable opts : option Api.options.

Local Abbreviation step := (step (T := T) ready entityName opts).
Local Abbreviation run := (run (T := T) ready entityName opts).

Lemma list_after_normal (p : settled (list T)) (c : Cells T) :
  snd (fetchData_after p c) = inl tt.
Proof. destruct c as [it lo er [|]], p; reflexivity. Qed.

Lemma list_fetchData_log (i : instance (Cells T)) :
  rejections (fetchData ready entityName opts i) = rejections i
  /\ issued (fetchData ready entityName opts i)
     = issued i ++ (if ready then [CallGetAll entityName opts] else []).
Proof.
  unfold fetchData. destruct ready.
  - split; reflexivity.
  - destruct (runBlock_normal
                (fetchData_after (Rejected (ThrownError notInitialized)))
                (runBlock (@fetchData_before T) i)) as (Hr & Hi & _).
    { exists tt. apply list_after_normal. }
    rewrite Hr, Hi, app_nil_r. split; reflexivity.
Qed.

Lemma list_step_log (i : instance (Cells T)) (ev : event T) :
  rejections (step i ev) = rejections i
  /\ issued (step i ev)
     = issued i ++ (if ready && isFetch ev
                    then [CallGetAll entityName opts] else []).
Proof.
  destruct ev as [| | |n p]; cbn [UseEntityList.step isFetch].
  - rewrite andb_true_r.
    destruct (list_fetchData_log (runBlock (setMounted (T := T) true) i))
      as [Hr Hi].
    rewrite Hr, Hi. split; reflexivity.
  - rewrite andb_false_r, app_nil_r. split; reflexivity.
  - rewrite andb_true_r. apply list_fetchData_log.
  - rewrite andb_false_r, app_nil_r.
    destruct (isPending n i); [|split; reflexivity].
    destruct (runBlock_normal (fetchData_after p) (settleCall n i))
      as (Hr & Hi & _).
    { exists tt. apply list_after_normal. }
    rewrite Hr, Hi. split; reflexivity.
Qed.

Lemma list_run_log (evs : list (event T)) :
  forall i : instance (Cells T),
    rejections (run evs i) = rejections i
    /\ issued (run evs i)
       = issued i
         ++ (if ready
             then repeat (CallGetAll entityName opts)
                    (length (filter (@isFetch T) evs))
             else []).
Proof.
  induction evs as [|ev evs IH]; intros i.
  - simpl. destruct ready; rewrite app_nil_r; split; reflexivity.
  - change (run (ev :: evs) i) with (run evs (step i ev)).
    destruct (IH (step i ev)) as [Hr Hi].
    destruct (list_step_log i ev) as [Hr' Hi'].
    rewrite Hr, Hi, Hr', Hi'. split; [reflexivity|].
    rewrite <- app_assoc. f_equal.
    cbn [filter]. destruct ready; [|reflexivity].
    cbn [andb]. destruct (isFetch ev); reflexivity.
Qed.

End ListMore.

Section EntityMore.

Import UseEntity.

Variable T : Type.
Variable ready : bool.
Variable entityName : str.
Variable id : option str.

Local Abbreviation step := (step (T := T) ready entityName id).
Local Abbreviation run := (run (T := T) ready entityName id).

Lemma entity_after_normal (p : settled T) (c : Cells T) :
  snd (fetchData_after p c) = inl tt.
Proof. destruct c as [it lo er [|]], p; reflexivity. Qed.

Lemma entity_fetchData_log (i : instance (Cells T)) :
  rejections (fetchData ready entityName id i) = rejections i
  /\ issued (fetchData ready entityName id i)
     = issued i ++ (if ready && truthyId id
                    then [CallGetOne entityName (idString id)] else []).
Proof.
  unfold fetchData. destruct (truthyId id).
  - cbn [negb]. rewrite andb_true_r. destruct ready.
    + split; reflexivity.
    + destruct (runBlock_normal
                  (fetchData_after (Rejected (ThrownError notInitialized)))
                  (runBlock (@fetchData_before T) i)) as (Hr & Hi & _).
      { exists tt. apply entity_after_normal. }
      rewrite Hr, Hi, app_nil_r. split; reflexivity.
  - cbn [negb]. rewrite andb_false_r, app_nil_r. split; reflexivity.
Qed.

Lemma entity_step_log (i : instance (Cells T)) (ev : event T) :
  rejections (step i ev) = rejections i
  /\ issued (step i ev)
     = issued i ++ (if ready && truthyId id && isFetch ev
                    then [CallGetOne entityName (idString id)] else []).
Proof.
  destruct ev as [| | |n p]; cbn [UseEntity.step isFetch].
  - rewrite andb_true_r.
    destruct (entity_fetchData_log (runBlock (setMounted (T := T) true) i))
      as [Hr Hi].
    rewrite Hr, Hi. split; reflexivity.
  - rewrite andb_false_r, app_nil_r. split; reflexivity.
  - rewrite andb_true_r. apply entity_fetchData_log.
  - rewrite andb_false_r, app_nil_r.
    destruct (isPending n i); [|split; reflexivity].
    destruct (runBlock_normal (fetchData_after p) (settleCall n i))
      as (Hr & Hi & _).
    { exists tt. apply entity_after_normal. }
    rewrite Hr, Hi. split; reflexivity.
Qed.

Lemma entity_run_log (evs : list (event T)) :
  forall i : instance (Cells T),
    rejections (run evs i) = rejections i
    /\ issued (run evs i)
       = issued i
         ++ (if ready && truthyId id
             then repeat (CallGetOne entityName (idString id))
                    (length (filter (@isFetch T) evs))
             else []).
Proof.
  induction evs as [|ev evs IH]; intros i.
  - simpl. destruct (ready && truthyId id); rewrite app_nil_r;
      split; reflexivity.
  - change (run (ev :: evs) i) with (run evs (step i ev)).
    destruct (IH (step i ev)) as [Hr Hi].
    destruct (entity_step_log i ev) as [Hr' Hi'].
    rewrite Hr, Hi, Hr', Hi'. split; [reflexivity|].
    rewrite <- app_assoc. f_equal.
    cbn [filter]. destruct (ready && truthyId id); [|reflexivity].
    cbn [andb]. destruct (isFetch ev); reflexivity.
Qed.

End EntityMore.

(** X17: the promise of [refetch] never rejects: whatever the events of
    a list or single-entity hook, failures of the client included, no
    rejection is added. *)
Theorem fetch_never_rejects (T : Type) (ready : bool) (entityName : str)
        (opts : option Api.options) (id : option str)
        (il : instance (UseEntityList.Cells T))
        (ie : instance (UseEntity.Cells T))
        (evl : list (UseEntityList.event T))
        (eve : list (UseEntity.event T)) :
  rejections (UseEntityList.run ready entityName opts evl il) = rejections il
  /\ rejections (UseEntity.run ready entityName id eve ie) = rejections ie.
Proof.
  split.
  - apply (list_run_log ready entityName opts evl il).
  - apply (entity_run_log ready entityName id eve ie).
Qed.

(** X18: the fetch hooks call the client once for each run of the
    effect and each [refetch], with the arguments of the hook, and at
    no other time: a settled request, failed or not, and the cleanup
    issue nothing; without an id, or before [initApi], nothing is
    issued at all. *)
Theorem fetch_calls_once_per_trigger (T : Type) (ready : bool)
        (entityName : str) (opts : option Api.options) (id : option str)
        (il : instance (UseEntityList.Cells T))
        (ie : instance (UseEntity.Cells T))
        (evl : list (UseEntityList.event T))
        (eve : list (UseEntity.event T)) :
  issued (UseEntityList.run ready entityName opts evl il)
  = issued il
    ++ (if ready
        then repeat (CallGetAll entityName opts)
               (length (filter (@UseEntityList.isFetch T) evl))
        else [])
  /\ issued (UseEntity.run ready entityName id eve ie)
     = issued ie
       ++ (if ready && truthyId id
           then repeat (CallGetOne entityName (idString id))
                  (length (filter (@UseEntity.isFetch T) eve))
           else []).
Proof.
  split.
  - apply (list_run_log ready entityName opts evl il).
  - apply (entity_run_log ready entityName id eve ie).
Qed.

(** X19: before [initApi] a fetch on a mounted hook ends at once: the
    error of [getApi] is in the error cell, [loading] is false and no
    call is issued; the list keeps its items and the single-entity hook
    drops its item. *)
Theorem fetch_before_initApi (T : Type) (entityName : str)
        (opts : option Api.options) (id : option str)
        (il : instance (UseEntityList.Cells T))
        (ie : instance (UseEntity.Cells T)) :
  UseEntityList.isMounted (cells il) = true ->
  UseEntity.isMounted (cells ie) = true ->
  truthyId id = true ->
  (let il' := UseEntityList.step false entityName opts il
                (UseEntityList.Refetch T) in
   UseEntityList.error (cells il') = Some notInitialized
   /\ UseEntityList.loading (cells il') = false
   /\ UseEntityList.items (cells il') = UseEntityList.items (cells il)
   /\ issued il' = issued il /\ pending il' = pending il)
  /\ (let ie' := UseEntity.step false entityName id ie
                   (UseEntity.Refetch T) in
      UseEntity.error (cells ie') = Some notInitialized
      /\ UseEntity.loading (cells ie') = false
      /\ UseEntity.item (cells ie') = None
      /\ issued ie' = issued ie /\ pending ie' = pending ie).
Proof.
  intros Hl He Hid. split; cbv zeta.
  - destruct il as [c iss pe rj]. destruct c as [it lo er mo].
    simpl in Hl. subst mo. repeat split; reflexivity.
  - destruct ie as [c iss pe rj]. destruct c as [it lo er mo].
    simpl in He. subst mo.
    unfold UseEntity.step, UseEntity.fetchData. rewrite Hid.
    repeat split; reflexivity.
Qed.

Lemma fetch_before_initApi_witness :
  let il' := UseEntityList.step false (lit "tasks") None
               (UseEntityList.initial nat) (UseEntityList.Refetch nat) in
  let ie' := UseEntity.step false (lit "tasks") (Some (lit "7"))
               (UseEntity.initial nat (Some (lit "7")))
               (UseEntity.Refetch nat) in
  (UseEntityList.error (cells il') = Some notInitialized
   /\ UseEntityList.loading (cells il') = false
   /\ UseEntityList.items (cells il') = []
   /\ issued il' = [] /\ pending il' = [])
  /\ (UseEntity.error (cells ie') = Some notInitialized
      /\ UseEntity.loading (cells ie') = false
      /\ UseEntity.item (cells ie') = None
      /\ issued ie' = [] /\ pending ie' = []).
Proof.
  exact (fetch_before_initApi (lit "tasks") None (Some (lit "7"))
           (UseEntityList.initial nat)
           (UseEntity.initial nat (Some (lit "7")))
           eq_refl eq_refl eq_refl).
Defined.

(** X20: the mounted flag does not tell the requests of two runs of
    the effect apart.  When the arguments of a list hook change, the
    cleanup and the new run of the effect leave the flag set, and a
    request issued for the old arguments that resolves afterwards
    writes its data into the items. *)
Theorem stale_request_after_rerun (T : Type) (oldName newName : str)
        (oldOpts newOpts : option Api.options)
        (i : instance (UseEntityList.Cells T)) (n : nat) (d : list T) :
  isPending n i = true ->
  nth_error (issued i) n = Some (CallGetAll oldName oldOpts) ->
  let rerun := UseEntityList.run true newName newOpts
                 [UseEntityList.Cleanup T; UseEntityList.RunEffect T] i in
  let late := UseEntityList.step true newName newOpts rerun
                (UseEntityList.Settle n (Resolved d)) in
  nth_error (issued late) n = Some (CallGetAll oldName oldOpts)
  /\ last (issued late) (CallGetAll oldName oldOpts)
     = CallGetAll newName newOpts
  /\ UseEntityList.items (cells late) = d
  /\ UseEntityList.loading (cells late) = false
  /\ isPending (length (issued i)) late = true.
Proof.
  intros Hp Hn rerun late.
  assert (Hrerun :
            rerun
            = {| cells := {| UseEntityList.items :=
                               UseEntityList.items (cells i);
                             UseEntityList.loading := true;
                             UseEntityList.error := None;
                             UseEntityList.isMounted := true |};
                 issued := issued i ++ [CallGetAll newName newOpts];
                 pending := pending i ++ [length (issued i)];
                 rejections := rejections i |}).
  { unfold rerun. destruct i as [c iss pe rj]. destruct c. reflexivity. }
  assert (Hp' : isPending n rerun = true).
  { rewrite Hrerun. unfold isPending in *. cbn [pending].
    rewrite existsb_app, Hp. reflexivity. }
  assert (Hm : UseEntityList.isMounted (cells rerun) = true)
    by (rewrite Hrerun; reflexivity).
  assert (Hlt : n < length (issued i)).
  { apply nth_error_Some. rewrite Hn. discriminate. }
  assert (Hlast : isPending (length (issued i)) late = true).
  { unfold late.
    destruct (list_settle_facts true newName newOpts rerun n (Resolved d)
                Hm Hp') as (_ & Hpend & _).
    rewrite Hpend, Hrerun. unfold isPending at 1. cbn [pending].
    rewrite existsb_app. cbn [existsb]. rewrite Nat.eqb_refl, orb_true_r.
    destruct (Nat.eqb_spec n (length (issued i))); [lia|reflexivity]. }
  split; [|split; [|split; [|split; [|exact Hlast]]]]; unfold late;
    rewrite (list_settle_mounted true newName newOpts rerun n (Resolved d)
               Hm Hp');
    rewrite Hrerun; cbn [cells issued UseEntityList.items
                           UseEntityList.loading].
  - rewrite nth_error_app1 by exact Hlt. exact Hn.
  - apply last_last.
  - reflexivity.
  - reflexivity.
Qed.

Lemma stale_request_after_rerun_witness :
  let i := UseEntityList.run true (lit "tasks") None
             [UseEntityList.RunEffect nat] (UseEntityList.initial nat) in
  let rerun := UseEntityList.run true (lit "projects") None
                 [UseEntityList.Cleanup nat; UseEntityList.RunEffect nat] i in
  let late := UseEntityList.step true (lit "projects") None rerun
                (UseEntityList.Settle 0 (Resolved [1])) in
  issued late = [CallGetAll (lit "tasks") None;
                 CallGetAll (lit "projects") None]
  /\ UseEntityList.items (cells late) = [1]
  /\ UseEntityList.loading (cells late) = false
  /\ isPending 1 late = true.
Proof.
  split; [reflexivity|].
  exact (proj2 (proj2 (@stale_request_after_rerun nat
                         (lit "tasks") (lit "projects") None None
                         (UseEntityList.run true (lit "tasks") None
                            [UseEntityList.RunEffect nat]
                            (UseEntityList.initial nat))
                         0 [1] eq_refl eq_refl))).
Defined.

(** X21: [loading] tells that the latest settlement has happened, not
    that no request is in flight: on a mounted list or single-entity
    hook with two requests pending, the first to settle clears
    [loading] while the other is still pending. *)
Theorem loading_cleared_by_first_settlement (T : Type) (ready : bool)
        (entityName : str) (opts : option Api.options) (id : option str)
        (il : instance (UseEntityList.Cells T))
        (ie : instance (UseEntity.Cells T))
        (n m : nat) (pl : settled (list T)) (pe : settled T) :
  n <> m ->
  UseEntityList.isMounted (cells il) = true ->
  isPending n il = true -> isPending m il = true ->
  UseEntity.isMounted (cells ie) = true ->
  isPending n ie = true -> isPending m ie = true ->
  (let il' := UseEntityList.step ready entityName opts il
                (UseEntityList.Settle n pl) in
   UseEntityList.loading (cells il') = false /\ isPending m il' = true)
  /\ (let ie' := UseEntity.step ready entityName id ie
                   (UseEntity.Settle n pe) in
      UseEntity.loading (cells ie') = false /\ isPending m ie' = true).
Proof.
  intros Hnm Hl Hln Hlm He Hen Hem.
  assert (Hneq : negb (n =? m) = true).
  { destruct (Nat.eqb_spec n m); [contradiction|reflexivity]. }
  split; cbv zeta.
  - destruct (list_settle_facts ready entityName opts il n pl Hl Hln)
      as (_ & Hpend & _).
    rewrite Hpend, Hlm, Hneq.
    rewrite (list_settle_mounted ready entityName opts il n pl Hl Hln).
    split; reflexivity.
  - destruct (entity_settle_facts ready entityName id ie n pe He Hen)
      as (_ & Hpend & _).
    rewrite Hpend, Hem, Hneq.
    rewrite (entity_settle_mounted ready entityName id ie n pe He Hen).
    split; reflexivity.
Qed.

Lemma loading_cleared_by_first_settlement_witness :
  let il := UseEntityList.twoInFlight true (lit "tasks") None
              (UseEntityList.initial nat) in
  let ie := UseEntity.twoInFlight true (lit "tasks") (Some (lit "7"))
              (UseEntity.initial nat (Some (lit "7"))) in
  (let il' := UseEntityList.step true (lit "tasks") None il
                (UseEntityList.Settle 0 (Resolved [1])) in
   UseEntityList.loading (cells il') = false /\ isPending 1 il' = true)
  /\ (let ie' := UseEntity.step true (lit "tasks") (Some (lit "7")) ie
                   (UseEntity.Settle 0 (Resolved 1)) in
      UseEntity.loading (cells ie') = false /\ isPending 1 ie' = true).
Proof.
  refine (@loading_cleared_by_first_settlement nat true (lit "tasks") None
            (Some (lit "7"))
            (UseEntityList.twoInFlight true (lit "tasks") None
               (UseEntityList.initial nat))
            (UseEntity.twoInFlight true (lit "tasks") (Some (lit "7"))
               (UseEntity.initial nat (Some (lit "7"))))
            0 1 (Resolved [1]) (Resolved 1) _
            eq_refl eq_refl eq_refl eq_refl eq_refl eq_refl).
  discriminate.
Defined.

Section MutationMore.

Import UseMutation.

Variable T : Type.
Variable ready : bool.
Variable entityName : str.

Local Abbreviation step := (step (T := T) ready entityName).
Local Abbreviation run := (run (T := T) ready entityName).

Lemma resume_resolved (call : apiCall) (result : T)
      (i : instance (Cells T)) :
  resume call (Resolved result) i
  = {| cells := {| data := match call with
                           | CallRemove _ _ => None
                           | _ => Some result
                           end;
                   loading := false; error := error (cells i) |};
       issued := issued i; pending := pending i;
       rejections := rejections i |}.
Proof.
  destruct i as [c iss pe rj]. destruct c. destruct call; reflexivity.
Qed.

Lemma resume_issued (call : apiCall) (p : settled T)
      (i : instance (Cells T)) :
  issued (resume call p i) = issued i.
Proof.
  destruct p as [result|err].
  - rewrite resume_resolved. reflexivity.
  - rewrite resume_rejected. reflexivity.
Qed.

Lemma mutation_step_issued (i : instance (Cells T)) (ev : event T) :
  issued (step i ev)
  = issued i ++ (if ready then callsOf entityName [ev] else []).
Proof.
  destruct ev as [o|n p| |]; cbn [UseMutation.step callsOf flat_map].
  - unfold mutate. destruct ready.
    + rewrite app_nil_r. reflexivity.
    + rewrite resume_issued, app_nil_r. reflexivity.
  - assert (E : (if ready then @nil apiCall else []) = [])
      by (destruct ready; reflexivity).
    cbn [app]. rewrite E, app_nil_r.
    destruct (isPending n i); [|reflexivity].
    destruct (nth_error (issued i) n); [|reflexivity].
    rewrite resume_issued. reflexivity.
  - assert (E : (if ready then @nil apiCall else []) = [])
      by (destruct ready; reflexivity).
    cbn [app]. rewrite E, app_nil_r. reflexivity.
  - assert (E : (if ready then @nil apiCall else []) = [])
      by (destruct ready; reflexivity).
    cbn [app]. rewrite E, app_nil_r. reflexivity.
Qed.

Lemma callsOf_cons (ev : event T) (evs : list (event T)) :
  callsOf entityName (ev :: evs)
  = callsOf entityName [ev] ++ callsOf entityName evs.
Proof.
  unfold callsOf. cbn [flat_map]. rewrite app_nil_r. reflexivity.
Qed.

Lemma mutation_run_issued (evs : list (event T)) :
  forall i : instance (Cells T),
    issued (run evs i)
    = issued i ++ (if ready then callsOf entityName evs else []).
Proof.
  induction evs as [|ev evs IH]; intros i.
  - simpl. destruct ready; rewrite app_nil_r; reflexivity.
  - change (run (ev :: evs) i) with (run evs (step i ev)).
    rewrite IH, mutation_step_issued, <- app_assoc. f_equal.
    destruct ready; [|reflexivity].
    symmetry. apply callsOf_cons.
Qed.

End MutationMore.

(** X22: when the client call of [create] or [update] succeeds, the
    result is stored in [data]; when that of [remove] succeeds, [data]
    is cleared; in both cases [loading] is back to false, the error cell
    is left as it is and the promise is not rejected. *)
Theorem mutation_success (T : Type) (ready : bool) (entityName : str)
        (o : UseMutation.op) (i : instance (UseMutation.Cells T))
        (n : nat) (result : T) :
  isPending n i = true ->
  nth_error (issued i) n = Some (UseMutation.callOf entityName o) ->
  let i' := UseMutation.step ready entityName i
              (UseMutation.Settle n (Resolved result)) in
  UseMutation.data (cells i')
  = match o with
    | UseMutation.Remove _ => None
    | _ => Some result
    end
  /\ UseMutation.loading (cells i') = false
  /\ UseMutation.error (cells i') = UseMutation.error (cells i)
  /\ rejections i' = rejections i
  /\ isPending n i' = false.
Proof.
  intros Hp Hcall i'. unfold i'. cbn [UseMutation.step].
  rewrite Hp, Hcall, resume_resolved.
  cbn [cells rejections UseMutation.data UseMutation.loading
         UseMutation.error].
  split; [destruct o; reflexivity|]. repeat split; try reflexivity.
  change (isPending n (settleCall n i) = false).
  rewrite isPending_settleCall, Nat.eqb_refl. apply andb_false_r.
Qed.

Lemma mutation_success_witness :
  let i := UseMutation.run true (lit "tasks")
             [UseMutation.Mutate nat (UseMutation.Remove (lit "7"))]
             (UseMutation.initial nat) in
  let i' := UseMutation.step true (lit "tasks") i
              (UseMutation.Settle 0 (Resolved 0)) in
  UseMutation.data (cells i') = None
  /\ UseMutation.loading (cells i') = false
  /\ UseMutation.error (cells i') = None
  /\ rejections i' = []
  /\ isPending 0 i' = false.
Proof.
  exact (@mutation_success nat true (lit "tasks")
           (UseMutation.Remove (lit "7"))
           (UseMutation.run true (lit "tasks")
              [UseMutation.Mutate nat (UseMutation.Remove (lit "7"))]
              (UseMutation.initial nat))
           0 0 eq_refl eq_refl).
Defined.

(** X23: [reset] puts the three cells back to their initial values and
    cancels nothing: the calls in flight stay pending, and a [create]
    or [update] that resolves after the reset stores its result again. *)
Theorem reset_does_not_cancel (T : Type) (ready : bool) (entityName : str)
        (i : instance (UseMutation.Cells T)) (n : nat) (result : T)
        (input : Api.options) :
  isPending n i = true ->
  nth_error (issued i) n = Some (CallCreate entityName input) ->
  let cleared := UseMutation.step ready entityName i (UseMutation.Reset T) in
  let late := UseMutation.step ready entityName cleared
                (UseMutation.Settle n (Resolved result)) in
  cells cleared = cells (UseMutation.initial T)
  /\ pending cleared = pending i
  /\ UseMutation.data (cells late) = Some result.
Proof.
  intros Hp Hcall cleared late.
  assert (Hc : cleared
               = {| cells := cells (UseMutation.initial T);
                    issued := issued i; pending := pending i;
                    rejections := rejections i |}).
  { unfold cleared. destruct i as [c iss pe rj]. destruct c. reflexivity. }
  split; [rewrite Hc; reflexivity|]. split; [rewrite Hc; reflexivity|].
  unfold late. rewrite Hc. cbn [UseMutation.step].
  unfold isPending in *. cbn [pending issued]. rewrite Hp, Hcall.
  rewrite resume_resolved. reflexivity.
Qed.

Lemma reset_does_not_cancel_witness :
  let i := UseMutation.run true (lit "tasks")
             [UseMutation.Mutate nat (UseMutation.Create [])]
             (UseMutation.initial nat) in
  let cleared := UseMutation.step true (lit "tasks") i
                   (UseMutation.Reset nat) in
  let late := UseMutation.step true (lit "tasks") cleared
                (UseMutation.Settle 0 (Resolved 3)) in
  cells cleared = cells (UseMutation.initial nat)
  /\ pending cleared = [0]
  /\ UseMutation.data (cells late) = Some 3.
Proof.
  exact (@reset_does_not_cancel nat true (lit "tasks")
           (UseMutation.run true (lit "tasks")
              [UseMutation.Mutate nat (UseMutation.Create [])]
              (UseMutation.initial nat))
           0 3 [] eq_refl eq_refl).
Defined.

(** X24: the mutation hook calls the client once for each call of
    [create], [update] or [remove], in their order and with their
    arguments, and at no other time: it never retries a failed call and
    does not merge two calls. *)
Theorem mutation_calls_once_each (T : Type) (ready : bool)
        (entityName : str) (i : instance (UseMutation.Cells T))
        (evs : list (UseMutation.event T)) :
  issued (UseMutation.run ready entityName evs i)
  = issued i ++ (if ready then UseMutation.callsOf entityName evs else []).
Proof. apply mutation_run_issued. Qed.

(** X25: [save] of the form hook is [update] for the id of the form
    when there is one and [create] otherwise, the empty id counting as
    none; it leaves the single-entity hook of the form as it is. *)
Theorem form_save_routes (T : Type) (entityName : str) (id : option str)
        (input : Api.options) (f : UseEntityForm.Form T) :
  let f' := UseEntityForm.save true entityName id input f in
  UseEntityForm.entity f' = UseEntityForm.entity f
  /\ issued (UseEntityForm.mutation f')
     = issued (UseEntityForm.mutation f)
       ++ [if truthyId id
           then CallUpdate entityName (idString id) input
           else CallCreate entityName input]
  /\ UseEntityForm.saving f' = true.
Proof.
  cbv zeta. unfold UseEntityForm.save, UseEntityForm.isEdit.
  destruct (truthyId id); cbn [andb];
    destruct f as [e [c iss pe rj]]; destruct c;
    repeat split; reflexivity.
Qed.

(** X26: before [initApi] each of [create], [update] and [remove] fails
    at once: the error of [getApi] is in the error cell and rejects the
    promise, [loading] is false, [data] is left as it is and no call is
    issued or pending. *)
Theorem mutation_before_initApi (T : Type) (entityName : str)
        (o : UseMutation.op) (i : instance (UseMutation.Cells T)) :
  let i' := UseMutation.step false entityName i (UseMutation.Mutate T o) in
  UseMutation.error (cells i') = Some notInitialized
  /\ UseMutation.loading (cells i') = false
  /\ UseMutation.data (cells i') = UseMutation.data (cells i)
  /\ issued i' = issued i /\ pending i' = pending i
  /\ rejections i' = rejections i ++ [ThrownError notInitialized].
Proof.
  cbv zeta. cbn [UseMutation.step]. unfold UseMutation.mutate.
  rewrite resume_rejected.
  destruct i as [c iss pe rj]. destruct c. repeat split; reflexivity.
Qed.

(** X27: a fetch that starts keeps the data already shown and clears
    the error; a fetch that succeeds replaces the data and does not
    touch the error cell, so that the error of another request that
    failed meanwhile stays. *)
Theorem refetch_keeps_data_clears_error (T : Type) (entityName : str)
        (opts : option Api.options) (id : option str)
        (il : instance (UseEntityList.Cells T))
        (ie : instance (UseEntity.Cells T))
        (n : nat) (dl : list T) (de : T) :
  truthyId id = true ->
  UseEntityList.isMounted (cells il) = true ->
  UseEntity.isMounted (cells ie) = true ->
  isPending n il = true -> isPending n ie = true ->
  (let started := UseEntityList.step true entityName opts il
                    (UseEntityList.Refetch T) in
   let done := UseEntityList.step true entityName opts il
                 (UseEntityList.Settle n (Resolved dl)) in
   UseEntityList.items (cells started) = UseEntityList.items (cells il)
   /\ UseEntityList.loading (cells started) = true
   /\ UseEntityList.error (cells started) = None
   /\ UseEntityList.items (cells done) = dl
   /\ UseEntityList.error (cells done) = UseEntityList.error (cells il))
  /\ (let started := UseEntity.step true entityName id ie
                       (UseEntity.Refetch T) in
      let done := UseEntity.step true entityName id ie
                    (UseEntity.Settle n (Resolved de)) in
      UseEntity.item (cells started) = UseEntity.item (cells ie)
      /\ UseEntity.loading (cells started) = true
      /\ UseEntity.error (cells started) = None
      /\ UseEntity.item (cells done) = Some de
      /\ UseEntity.error (cells done) = UseEntity.error (cells ie)).
Proof.
  intros Hid Hl He Hpl Hpe. split; cbv zeta.
  - cbn [UseEntityList.step].
    rewrite (@list_fetchData_ready T true entityName opts il eq_refl).
    rewrite Hpl.
    pose proof (list_settle_mounted true entityName opts il n (Resolved dl)
                  Hl Hpl) as Hs.
    cbn [UseEntityList.step] in Hs. rewrite Hpl in Hs. rewrite Hs.
    repeat split; reflexivity.
  - cbn [UseEntity.step].
    rewrite (@entity_fetchData_ready T true entityName id ie eq_refl Hid).
    rewrite Hpe.
    pose proof (entity_settle_mounted true entityName id ie n (Resolved de)
                  He Hpe) as Hs.
    cbn [UseEntity.step] in Hs. rewrite Hpe in Hs. rewrite Hs.
    repeat split; reflexivity.
Qed.

Lemma refetch_keeps_data_clears_error_witness :
  let il := UseEntityList.run true (lit "tasks") None
              [UseEntityList.RunEffect nat] (UseEntityList.initial nat) in
  let ie := UseEntity.run true (lit "tasks") (Some (lit "7"))
              [UseEntity.RunEffect nat]
              (UseEntity.initial nat (Some (lit "7"))) in
  (let started := UseEntityList.step true (lit "tasks") None il
                    (UseEntityList.Refetch nat) in
   let done := UseEntityList.step true (lit "tasks") None il
                 (UseEntityList.Settle 0 (Resolved [4])) in
   UseEntityList.items (cells started) = []
   /\ UseEntityList.loading (cells started) = true
   /\ UseEntityList.error (cells started) = None
   /\ UseEntityList.items (cells done) = [4]
   /\ UseEntityList.error (cells done) = None)
  /\ (let started := UseEntity.step true (lit "tasks") (Some (lit "7")) ie
                       (UseEntity.Refetch nat) in
      let done := UseEntity.step true (lit "tasks") (Some (lit "7")) ie
                    (UseEntity.Settle 0 (Resolved 4)) in
      UseEntity.item (cells started) = None
      /\ UseEntity.loading (cells started) = true
      /\ UseEntity.error (cells started) = None
      /\ UseEntity.item (cells done) = Some 4
      /\ UseEntity.error (cells done) = None).
Proof.
  exact (@refetch_keeps_data_clears_error nat (lit "tasks") None
           (Some (lit "7"))
           (UseEntityList.run true (lit "tasks") None
              [UseEntityList.RunEffect nat] (UseEntityList.initial nat))
           (UseEntity.run true (lit "tasks") (Some (lit "7"))
              [UseEntity.RunEffect nat]
              (UseEntity.initial nat (Some (lit "7"))))
           0 [4] 4 eq_refl eq_refl eq_refl eq_refl eq_refl).
Defined.

Lemma displayFields_spec_witness :
  Schema.displayFields
    (Schema.createEntityMetadata (lit "tasks") Schema.sampleEntity)
  = [lit "title"; lit "done"; lit "owner"]
  /\ (In (lit "title") (map fst Schema.sampleEntity)
      /\ startsWith (lit "title") (lit "_") = false
      /\ lit "title" <> lit "user_id").
Proof.
  split; [reflexivity|].
  apply (proj1 (proj2 (displayFields_spec (lit "tasks")
                         Schema.sampleEntity)) (lit "title")).
  left. reflexivity.
Defined.

Lemma getUserFkFields_spec_witness :
  In (lit "owner") (Schema.getUserFkFields Schema.sampleEntity)
  /\ lit "owner" <> lit "_id".
Proof.
  split; [right; left; reflexivity|].
  apply (proj1 (proj1 (getUserFkFields_spec Schema.sampleEntity
                         (lit "owner"))
                  (or_intror (or_introl eq_refl)))).
Defined.

(* ===================================================================== *)
(** ** Teardown, and the single-entity hook without an id *)
(* ===================================================================== *)

(** C7: a single-entity hook without an id never calls the client.
    In whatever state the hook is, a run of the effect or a [refetch]
    issues no call, sets the item to null and [loading] to false and
    leaves the rest as it is; no sequence of events issues a call; and
    a hook created without an id has, after any events, no item, is not
    loading and has no error. *)
Theorem useEntity_without_id (T : Type) (ready : bool) (entityName : str)
        (id : option str) (i : instance (UseEntity.Cells T))
        (evs : list (UseEntity.event T)) :
  truthyId id = false ->
  (forall ev : UseEntity.event T,
      UseEntity.isFetch ev = true ->
      let i' := UseEntity.step ready entityName id i ev in
      issued i' = issued i /\ pending i' = pending i
      /\ rejections i' = rejections i
      /\ UseEntity.item (cells i') = None
      /\ UseEntity.loading (cells i') = false
      /\ UseEntity.error (cells i') = UseEntity.error (cells i))
  /\ issued (UseEntity.run ready entityName id evs i) = issued i
  /\ (let j := UseEntity.run ready entityName id evs
                 (UseEntity.initial T id) in
      issued j = []
      /\ UseEntity.item (cells j) = None
      /\ UseEntity.loading (cells j) = false
      /\ UseEntity.error (cells j) = None).
Proof.
  intros Hid. split; [|split].
  - intros ev Hev. cbv zeta.
    destruct i as [c iss pe rj]. destruct c as [it lo er mo].
    destruct ev as [| | |n p]; try discriminate;
      unfold UseEntity.step, UseEntity.fetchData; rewrite Hid;
      repeat split; reflexivity.
  - destruct (entity_run_log ready entityName id evs i) as [_ Hi].
    rewrite Hi, Hid, andb_false_r, app_nil_r. reflexivity.
  - cbv zeta.
    assert (H : UseEntity.settledEmpty
                  (UseEntity.run ready entityName id evs
                     (UseEntity.initial T id))).
    { apply entity_noId_run; [exact Hid|].
      unfold UseEntity.settledEmpty, UseEntity.initial. simpl.
      rewrite Hid. repeat split; reflexivity. }
    destruct H as (Hi & _ & Hitem & Hl & He). repeat split; assumption.
Qed.

Lemma useEntity_without_id_witness :
  let loaded :=
    {| cells := {| UseEntity.item := Some 5; UseEntity.loading := true;
                   UseEntity.error := Some {| message := lit "old" |};
                   UseEntity.isMounted := true |};
       issued := [CallGetOne (lit "tasks") (lit "7")];
       pending := [0]; rejections := [] |} in
  let i' := UseEntity.step true (lit "tasks") None loaded
              (UseEntity.RunEffect nat) in
  truthyId None = false
  /\ issued i' = [CallGetOne (lit "tasks") (lit "7")]
  /\ pending i' = [0]
  /\ rejections i' = []
  /\ UseEntity.item (cells i') = None
  /\ UseEntity.loading (cells i') = false
  /\ UseEntity.error (cells i') = Some {| message := lit "old" |}.
Proof.
  split; [reflexivity|].
  exact (proj1 (@useEntity_without_id nat true (lit "tasks") None
                  {| cells := {| UseEntity.item := Some 5;
                                 UseEntity.loading := true;
                                 UseEntity.error :=
                                   Some {| message := lit "old" |};
                                 UseEntity.isMounted := true |};
                     issued := [CallGetOne (lit "tasks") (lit "7")];
                     pending := [0]; rejections := [] |}
                  [] eq_refl)
           (UseEntity.RunEffect nat) eq_refl).
Defined.

(** C2 (amended): a list or single-entity hook that is torn down, its
    cleanup having run and neither the effect nor [refetch] running
    again, writes no cell and rejects no promise when the requests still
    pending settle, resolved or rejected.  The mutation hook has no
    such flag: a call that resolves after the unmount does not throw
    either, and a call that is rejected throws its error to the caller
    as it does before the unmount. *)
Theorem teardown_settlements (T : Type) (ready : bool) (entityName : str)
        (opts : option Api.options) (id : option str)
        (il : instance (UseEntityList.Cells T))
        (ie : instance (UseEntity.Cells T))
        (im : instance (UseMutation.Cells T))
        (evl : list (UseEntityList.event T))
        (eve : list (UseEntity.event T))
        (n : nat) (o : UseMutation.op) (p : settled T) :
  forallb (@UseEntityList.isSettle T) evl = true ->
  forallb (@UseEntity.isSettle T) eve = true ->
  isPending n im = true ->
  nth_error (issued im) n = Some (UseMutation.callOf entityName o) ->
  (let torn := UseEntityList.step ready entityName opts il
                 (UseEntityList.Cleanup T) in
   cells (UseEntityList.run ready entityName opts evl torn) = cells torn
   /\ rejections (UseEntityList.run ready entityName opts evl torn)
      = rejections torn)
  /\ (let torn := UseEntity.step ready entityName id ie
                    (UseEntity.Cleanup T) in
      cells (UseEntity.run ready entityName id eve torn) = cells torn
      /\ rejections (UseEntity.run ready entityName id eve torn)
         = rejections torn)
  /\ (let torn := UseMutation.step ready entityName im
                    (UseMutation.Unmount T) in
      let late := UseMutation.step ready entityName torn
                    (UseMutation.Settle n p) in
      rejections late
      = rejections torn
        ++ match p with
           | Resolved _ => []
           | Rejected err => [ThrownError (toError err)]
           end).
Proof.
  intros Hl He Hp Hcall. split; [|split]; cbv zeta.
  - apply list_settles_unmounted; [reflexivity|exact Hl].
  - apply entity_settles_unmounted; [reflexivity|exact He].
  - cbn [UseMutation.step]. rewrite Hp, Hcall.
    destruct p as [result|err].
    + rewrite resume_resolved, app_nil_r. reflexivity.
    + rewrite resume_rejected. reflexivity.
Qed.

Lemma teardown_settlements_witness :
  let il := UseEntityList.run true (lit "tasks") None
              [UseEntityList.RunEffect nat; UseEntityList.Cleanup nat]
              (UseEntityList.initial nat) in
  let ie := UseEntity.run true (lit "tasks") (Some (lit "7"))
              [UseEntity.RunEffect nat; UseEntity.Cleanup nat]
              (UseEntity.initial nat (Some (lit "7"))) in
  let im := UseMutation.run true (lit "tasks")
              [UseMutation.Mutate nat (UseMutation.Create []);
               UseMutation.Unmount nat]
              (UseMutation.initial nat) in
  (cells (UseEntityList.run true (lit "tasks") None
            [UseEntityList.Settle 0 (Resolved [1])] il) = cells il
   /\ rejections (UseEntityList.run true (lit "tasks") None
                    [UseEntityList.Settle 0 (Resolved [1])] il)
      = rejections il)
  /\ (cells (UseEntity.run true (lit "tasks") (Some (lit "7"))
               [UseEntity.Settle 0 (Rejected (ThrownValue Api.VNull))] ie)
      = cells ie
      /\ rejections (UseEntity.run true (lit "tasks") (Some (lit "7"))
                       [UseEntity.Settle 0 (Rejected (ThrownValue Api.VNull))]
                       ie)
         = rejections ie)
  /\ rejections (UseMutation.step true (lit "tasks") im
                   (UseMutation.Settle 0 (Resolved 9)))
     = [].
Proof.
  exact (@teardown_settlements nat true (lit "tasks") None (Some (lit "7"))
           (UseEntityList.run true (lit "tasks") None
              [UseEntityList.RunEffect nat] (UseEntityList.initial nat))
           (UseEntity.run true (lit "tasks") (Some (lit "7"))
              [UseEntity.RunEffect nat]
              (UseEntity.initial nat (Some (lit "7"))))
           (UseMutation.run true (lit "tasks")
              [UseMutation.Mutate nat (UseMutation.Create [])]
              (UseMutation.initial nat))
           [UseEntityList.Settle 0 (Resolved [1])]
           [UseEntity.Settle 0 (Rejected (ThrownValue Api.VNull))]
           0 (UseMutation.Create []) (Resolved 9)
           eq_refl eq_refl eq_refl eq_refl).
Defined.
